(** * SignLanguageProcessor: the frame pipeline of services/SignLanguageProcessor.ts

    A shallow embedding of the class [SignLanguageProcessor]: frame
    extraction, the per-frame classifier, and the loop of [processVideo]
    that debounces per-frame letters into the translated text.

    The asynchronous methods run strictly one after the other (every call
    is awaited), so each method is a function that returns the list of
    the outside calls it made, in order, together with how it completed. *)

From Stdlib Require Import String List Arith ZArith Lia Bool Floats Uint63 Sorted.
Import ListNotations.
Open Scope string_scope.
Open Scope list_scope.

(** ** Outside calls and completions *)

(** The calls that leave the class: the two expo modules and the caller's
    progress callback.  [console.log] and [console.error] are not traced. *)
Inductive Event : Type :=
| GetThumbnail (videoUri : string) (timeMs : nat)
| ReadAsString (fileUri : string)
| DeleteFile (fileUri : string)
| OnProgress (progress : nat) (currentLetter : option string) (currentText : string).

(** How an awaited call ends: with a value, or with a thrown [Error]. *)
Inductive Completion (A : Type) : Type :=
| Normal (value : A)
| Thrown (message : string).
Arguments Normal {A} value.
Arguments Thrown {A} message.

Definition Eff (A : Type) : Type := (list Event * Completion A)%type.

Definition ret {A} (a : A) : Eff A := ([], Normal a).

Definition throw {A} (message : string) : Eff A := ([], Thrown message).

Definition emit (e : Event) : Eff unit := ([e], Normal tt).

Definition bind {A B} (m : Eff A) (k : A -> Eff B) : Eff B :=
  match m with
  | (t, Normal a) => let (t', r) := k a in (t ++ t', r)
  | (t, Thrown message) => (t, Thrown message)
  end.

(** [try { body } catch (error) { handler }] *)
Definition tryCatch {A} (body : Eff A) (handler : string -> Eff A) : Eff A :=
  match body with
  | (t, Normal a) => (t, Normal a)
  | (t, Thrown message) => let (t', r) := handler message in (t ++ t', r)
  end.

Declare Scope eff_scope.
Delimit Scope eff_scope with eff.
Notation "x <- m ;; k" := (bind m (fun x => k))
  (at level 100, m at next level, right associativity) : eff_scope.
Notation "m ;;; k" := (bind m (fun _ => k))
  (at level 100, right associativity) : eff_scope.
Open Scope eff_scope.

Definition trace {A} (m : Eff A) : list Event := fst m.
Definition outcome {A} (m : Eff A) : Completion A := snd m.

(** ** The world outside the class *)

(** What the expo modules answer.  [None] and [false] stand for a rejected
    promise. *)
Record World : Type := {
  getThumbnailAsync : string -> nat -> option string;
  readAsStringAsync : string -> option string;
  deleteAsync : string -> bool
}.

Definition callGetThumbnail (W : World) (videoUri : string) (timeMs : nat) : Eff string :=
  ([GetThumbnail videoUri timeMs],
   match getThumbnailAsync W videoUri timeMs with
   | Some uri => Normal uri
   | None => Thrown "getThumbnailAsync rejected"
   end).

Definition callReadAsString (W : World) (fileUri : string) : Eff string :=
  ([ReadAsString fileUri],
   match readAsStringAsync W fileUri with
   | Some base64 => Normal base64
   | None => Thrown "readAsStringAsync rejected"
   end).

Definition callDelete (W : World) (fileUri : string) : Eff unit :=
  ([DeleteFile fileUri],
   if deleteAsync W fileUri then Normal tt else Thrown "deleteAsync rejected").

(** [onProgress?.(progress, currentLetter, currentText)], with a callback
    supplied that returns; [callOnProgress] below is the call of a
    callback that may throw. *)
Definition onProgress (progress : nat) (currentLetter : option string)
    (currentText : string) : Eff unit :=
  emit (OnProgress progress currentLetter currentText).

(** ** Data *)

(** The value [processFrame] resolves to when it is not [null]. *)
Record Prediction : Type := {
  letter : string;
  confidence : float
}.

(** The [private readonly] fields of the class. *)
Record SignLanguageProcessor : Type := {
  CONFIDENCE_THRESHOLD : float;
  CONSISTENCY_FRAMES : nat;
  FRAME_INTERVAL_MS : nat
}.

(** [new SignLanguageProcessor()] *)
Definition newSignLanguageProcessor : SignLanguageProcessor :=
  {| CONFIDENCE_THRESHOLD := 0x1.999999999999ap-1%float;
     CONSISTENCY_FRAMES := 15;
     FRAME_INTERVAL_MS := 33 |}.

(** The three [let] variables of [processVideo]. *)
Record Locals : Type := {
  translatedText : string;
  lastPredictedLetter : string;
  framesConsistent : nat
}.

Definition initialLocals : Locals :=
  {| translatedText := ""; lastPredictedLetter := ""; framesConsistent := 0 |}.

(** ** extractFrames *)

Definition frameCount : nat := 100.

(** The [for (let i = 0; i < frameCount; i++)] loop: [remaining] is
    [frameCount - i]; a rejected thumbnail is caught and breaks out. *)
Fixpoint extractLoop (W : World) (this : SignLanguageProcessor) (videoUri : string)
    (remaining i : nat) (frames : list string) : Eff (list string) :=
  match remaining with
  | 0 => ret frames
  | S remaining' =>
      let timeMs := i * FRAME_INTERVAL_MS this in
      got <- tryCatch (uri <- callGetThumbnail W videoUri timeMs ;; ret (Some uri))
                      (fun _ => ret None) ;;
      match got with
      | Some uri => extractLoop W this videoUri remaining' (S i) (frames ++ [uri])
      | None => ret frames
      end
  end.

Definition extractFrames (W : World) (this : SignLanguageProcessor)
    (videoUri : string) : Eff (list string) :=
  tryCatch (extractLoop W this videoUri frameCount 0 [])
           (fun _ => throw "Failed to extract video frames").

(** ** The run counter of processVideo *)

(** The body of [if (result) { ... }] up to the progress update: the
    run counter and the commit. *)
Definition observe (this : SignLanguageProcessor) (st : Locals) (p : Prediction)
    : Locals :=
  let st1 :=
    if (letter p =? lastPredictedLetter st)%string
    then {| translatedText := translatedText st;
            lastPredictedLetter := lastPredictedLetter st;
            framesConsistent := S (framesConsistent st) |}
    else {| translatedText := translatedText st;
            lastPredictedLetter := letter p;
            framesConsistent := 0 |} in
  if (framesConsistent st1 =? CONSISTENCY_FRAMES this)%nat
  then {| translatedText := translatedText st1 ++ letter p;
          lastPredictedLetter := lastPredictedLetter st1;
          framesConsistent := 0 |}
  else st1.

(** [30 + Math.floor((i / frames.length) * 60)], with the quotient taken
    exactly; [frameProgress_float_agrees] below shows that the double
    arithmetic of the source gives the same number for every array
    [extractFrames] can produce. *)
Definition frameProgress (i n : nat) : nat := 30 + (i * 60) / n.

(** ** processFrame and processVideo *)

Section Classifier.

Variable Model : Type.

(** The step the source leaves open after reading the frame
    ([const output = await model.run(preprocessedData)]): it may
    resolve to a prediction, to [null], or throw. *)
Variable inference : string -> Model -> Completion (option Prediction).

Definition processFrame (W : World) (frameUri : string) (model : Model)
    : Eff (option Prediction) :=
  tryCatch (base64 <- callReadAsString W frameUri ;;
            ([], inference base64 model))
           (fun _ => ret None).

(** The [for (let i = 0; i < frames.length; i++)] loop over the frames
    from index [i] on; [n] is [frames.length]. *)
Fixpoint frameLoop (W : World) (this : SignLanguageProcessor) (model : Model)
    (n i : nat) (rest : list string) (st : Locals) : Eff Locals :=
  match rest with
  | [] => ret st
  | frame :: rest' =>
      result <- processFrame W frame model ;;
      st' <- match result with
             | Some p =>
                 let st1 := observe this st p in
                 onProgress (frameProgress i n) (Some (letter p)) (translatedText st1) ;;;
                 ret st1
             | None => ret st
             end ;;
      tryCatch (callDelete W frame) (fun _ => ret tt) ;;;
      frameLoop W this model n (S i) rest' st'
  end.

(** [processVideo], for a progress callback that returns;
    [processVideoCalling] below is [processVideo] for a callback that may
    throw. *)
Definition processVideo (W : World) (this : SignLanguageProcessor)
    (videoUri : string) (model : option Model) : Eff string :=
  match model with
  | None => throw "Model not loaded"
  | Some m =>
      tryCatch
        (onProgress 10 None "Extracting frames..." ;;;
         frames <- extractFrames W this videoUri ;;
         if (length frames =? 0)%nat
         then throw "No frames extracted from video"
         else
           onProgress 30 None "Processing frames..." ;;;
           st <- frameLoop W this m (length frames) 0 frames initialLocals ;;
           onProgress 100 None (translatedText st) ;;;
           ret (translatedText st))
        (fun error => throw error)
  end.

End Classifier.

Arguments processFrame {Model} inference W frameUri model.
Arguments frameLoop {Model} inference W this model n i rest st.
Arguments processVideo {Model} inference W this videoUri model.

(** The classifier as shipped: after the read it returns [null]. *)
Definition placeholder {Model : Type} (base64 : string) (model : Model)
    : Completion (option Prediction) := Normal None.

(** ** The loop seen from the predictions *)

(** What one iteration does to the locals, given what [processFrame]
    resolved to: [if (result) { ... }] with no [else]. *)
Definition feed (this : SignLanguageProcessor) (st : Locals)
    (result : option Prediction) : Locals :=
  match result with
  | Some p => observe this st p
  | None => st
  end.

(** The locals after the loop has seen the results in order. *)
Definition decode (this : SignLanguageProcessor) (results : list (option Prediction))
    (st : Locals) : Locals :=
  fold_left (feed this) results st.

(** What [processFrame] resolves to for a frame. *)
Definition classified {Model : Type}
    (inference : string -> Model -> Completion (option Prediction))
    (W : World) (model : Model) (frameUri : string) : option Prediction :=
  match readAsStringAsync W frameUri with
  | Some base64 =>
      match inference base64 model with
      | Normal result => result
      | Thrown _ => None
      end
  | None => None
  end.

(** [n] copies of a letter, one after the other. *)
Fixpoint copies (n : nat) (s : string) : string :=
  match n with
  | 0 => ""
  | S n' => (s ++ copies n' s)%string
  end.

(** Projections of a trace. *)
Definition progressValues (t : list Event) : list nat :=
  flat_map (fun e => match e with OnProgress p _ _ => [p] | _ => [] end) t.

Definition fileCalls (t : list Event) : list Event :=
  filter (fun e => match e with
                   | ReadAsString _ | DeleteFile _ => true
                   | _ => false
                   end) t.

Definition thumbnailCalls (t : list Event) : list Event :=
  filter (fun e => match e with GetThumbnail _ _ => true | _ => false end) t.

Definition readCalls (t : list Event) : list Event :=
  filter (fun e => match e with ReadAsString _ => true | _ => false end) t.

(** A prediction of letter [l] with confidence [c]. *)
Definition predict (l : string) (c : float) : option Prediction :=
  Some {| letter := l; confidence := c |}.

(** ** Descriptions of runs, and example worlds *)

(** Confidences used in the examples: 0.9 and 0.5 as binary64 values. *)
Definition conf_0_9 : float := 0x1.ccccccccccccdp-1%float.
Definition conf_0_5 : float := 0x1p-1%float.

(** The thumbnails [extractLoop] collects from index [i] on: those up to
    the first rejected one, [remaining] at most. *)
Fixpoint thumbnails (W : World) (this : SignLanguageProcessor) (videoUri : string)
    (remaining i : nat) : list string :=
  match remaining with
  | 0 => []
  | S remaining' =>
      match getThumbnailAsync W videoUri (i * FRAME_INTERVAL_MS this) with
      | Some uri => uri :: thumbnails W this videoUri remaining' (S i)
      | None => []
      end
  end.

(** The calls [extractLoop] makes from index [i] on. *)
Fixpoint extractTrace (W : World) (this : SignLanguageProcessor) (videoUri : string)
    (remaining i : nat) : list Event :=
  match remaining with
  | 0 => []
  | S remaining' =>
      GetThumbnail videoUri (i * FRAME_INTERVAL_MS this) ::
      match getThumbnailAsync W videoUri (i * FRAME_INTERVAL_MS this) with
      | Some _ => extractTrace W this videoUri remaining' (S i)
      | None => []
      end
  end.

(** The frames one session works on. *)
Definition extractedFrames (W : World) (this : SignLanguageProcessor)
    (videoUri : string) : list string :=
  thumbnails W this videoUri frameCount 0.

(** The calls one iteration of the frame loop makes. *)
Definition iterationTrace (this : SignLanguageProcessor) (n i : nat)
    (frame : string) (result : option Prediction) (st : Locals) : list Event :=
  ReadAsString frame ::
  match result with
  | Some p => [OnProgress (frameProgress i n) (Some (letter p))
                 (translatedText (observe this st p))]
  | None => []
  end ++ [DeleteFile frame].

(** The calls the frame loop makes from index [i] on, given each frame
    with what [processFrame] resolves to for it. *)
Fixpoint loopTrace (this : SignLanguageProcessor) (n i : nat)
    (rest : list (string * option Prediction)) (st : Locals) : list Event :=
  match rest with
  | [] => []
  | (frame, result) :: rest' =>
      iterationTrace this n i frame result st ++
      loopTrace this n (S i) rest' (feed this st result)
  end.

(** Each frame paired with what [processFrame] resolves to for it. *)
Definition results {Model : Type}
    (inference : string -> Model -> Completion (option Prediction))
    (W : World) (model : Model) (frames : list string)
    : list (string * option Prediction) :=
  map (fun frame => (frame, classified inference W model frame)) frames.

(** The name of the thumbnail at index [k]: frame-a, frame-b, ... *)
Definition frameName (k : nat) : string :=
  ("frame-" ++ String (Ascii.ascii_of_nat (97 + k)) "")%string.

(** A video that gives [frames] thumbnails at 33 ms offsets, then none;
    every read succeeds, with the name of the file as its content, and
    every deletion succeeds. *)
Definition videoOf (frames : nat) : World :=
  {| getThumbnailAsync := fun _ timeMs =>
       if (timeMs / 33 <? frames)%nat then Some (frameName (timeMs / 33)) else None;
     readAsStringAsync := fun fileUri => Some fileUri;
     deleteAsync := fun _ => true |}.

(** The same world with another answer to deletions. *)
Definition withDelete (W : World) (answer : string -> bool) : World :=
  {| getThumbnailAsync := getThumbnailAsync W;
     readAsStringAsync := readAsStringAsync W;
     deleteAsync := answer |}.

(** The same world with every read rejected. *)
Definition withoutReads (W : World) : World :=
  {| getThumbnailAsync := getThumbnailAsync W;
     readAsStringAsync := fun _ => None;
     deleteAsync := deleteAsync W |}.

(** A classifier that sees the letter A in every frame. *)
Definition alwaysA (base64 : string) (model : unit) : Completion (option Prediction) :=
  Normal (predict "A" conf_0_9).

(** A classifier whose inference always throws. *)
Definition alwaysThrows {Model : Type} (base64 : string) (model : Model)
    : Completion (option Prediction) := Thrown "inference failed".



(** [Math.floor] of a double that is finite and not negative. *)
Definition floorFloat (x : float) : Z :=
  match Prim2SF x with
  | S754_finite false m e =>
      if (0 <=? e)%Z then Z.shiftl (Zpos m) e else Z.shiftr (Zpos m) (- e)
  | _ => 0%Z
  end.

(** [30 + Math.floor((i / frames.length) * 60)] in binary64 arithmetic. *)
Definition frameProgressFloat (i n : nat) : Z :=
  (30 + floorFloat (PrimFloat.mul
                      (PrimFloat.div (PrimFloat.of_uint63 (Uint63.of_Z (Z.of_nat i)))
                                     (PrimFloat.of_uint63 (Uint63.of_Z (Z.of_nat n))))
                      60%float))%Z.

(** ** Runs of letters *)

(** The letters of the frames for which there is a prediction. *)
Definition lettersOf (rs : list (option Prediction)) : list string :=
  flat_map (fun r => match r with Some p => [letter p] | None => [] end) rs.

(** A run [(l, k)] stands for [S k] predicted frames in a row with the
    letter [l]. *)
Definition expandRuns (runs : list (string * nat)) : list string :=
  flat_map (fun run => repeat (fst run) (S (snd run))) runs.

(** Each run has another letter than the one before it; [prev] is the
    letter before the first run. *)
Fixpoint changes (prev : string) (runs : list (string * nat)) : Prop :=
  match runs with
  | [] => True
  | run :: rest => fst run <> prev /\ changes (fst run) rest
  end.

(** The letter of a prediction, when there is one, is a single
    character, as the entries of LETTER_PREDICTIONS are. *)
Definition oneCharacter (r : option Prediction) : Prop :=
  match r with
  | Some p => String.length (letter p) = 1
  | None => True
  end.

(** The strings of a list, one after the other. *)
Fixpoint joined (ls : list string) : string :=
  match ls with
  | [] => ""
  | l :: ls' => (l ++ joined ls')%string
  end.

(** ** getSignLanguageProcessor *)

(** The module variable [processorInstance] of SignLanguageProcessor.ts.
    An object is known by the number of the constructor call that made
    it; [constructed] counts the calls of [new SignLanguageProcessor()]. *)
Record ModuleState : Type := {
  processorInstance : option nat;
  constructed : nat
}.

(** The module as loaded: [let processorInstance = null]. *)
Definition moduleLoaded : ModuleState :=
  {| processorInstance := None; constructed := 0 |}.

Definition getSignLanguageProcessor (st : ModuleState) : nat * ModuleState :=
  match processorInstance st with
  | Some instance => (instance, st)
  | None =>
      let instance := constructed st in
      (instance, {| processorInstance := Some instance;
                    constructed := S (constructed st) |})
  end.

(** [calls] calls in a row: the objects returned, and the module state
    after them. *)
Fixpoint getSignLanguageProcessorTimes (calls : nat) (st : ModuleState)
    : list nat * ModuleState :=
  match calls with
  | 0 => ([], st)
  | S calls' =>
      let (instance, st1) := getSignLanguageProcessor st in
      let (instances, st2) := getSignLanguageProcessorTimes calls' st1 in
      (instance :: instances, st2)
  end.

(** ** The camera screen: the component that calls processVideo
       (app/home/camera/index.tsx in the repository's guide) *)

Module CameraScreen.

Inductive CameraType : Type := back | front.

(** [model.state] of the [useTensorflowModel] hook. *)
Inductive ModelState : Type := loading | loaded | error.

(** What the hook gives the component: its state and, once loaded, the
    model. *)
Record TensorflowModel (Model : Type) : Type := {
  state : ModelState;
  model : option Model
}.
Arguments state {Model} _.
Arguments model {Model} _.

(** The [useState] variables of the component. *)
Record Screen : Type := {
  facing : CameraType;
  isRecording : bool;
  isProcessing : bool;
  processingProgress : nat;
  translatedText : string;
  showResult : bool;
  recordedVideoUri : option string
}.

(** The component as mounted. *)
Definition mounted : Screen :=
  {| facing := front; isRecording := false; isProcessing := false;
     processingProgress := 0; translatedText := ""; showResult := false;
     recordedVideoUri := None |}.

Definition setFacing (v : CameraType) (s : Screen) : Screen :=
  {| facing := v; isRecording := isRecording s; isProcessing := isProcessing s;
     processingProgress := processingProgress s; translatedText := translatedText s;
     showResult := showResult s; recordedVideoUri := recordedVideoUri s |}.

Definition setIsRecording (v : bool) (s : Screen) : Screen :=
  {| facing := facing s; isRecording := v; isProcessing := isProcessing s;
     processingProgress := processingProgress s; translatedText := translatedText s;
     showResult := showResult s; recordedVideoUri := recordedVideoUri s |}.

Definition setIsProcessing (v : bool) (s : Screen) : Screen :=
  {| facing := facing s; isRecording := isRecording s; isProcessing := v;
     processingProgress := processingProgress s; translatedText := translatedText s;
     showResult := showResult s; recordedVideoUri := recordedVideoUri s |}.

Definition setProcessingProgress (v : nat) (s : Screen) : Screen :=
  {| facing := facing s; isRecording := isRecording s; isProcessing := isProcessing s;
     processingProgress := v; translatedText := translatedText s;
     showResult := showResult s; recordedVideoUri := recordedVideoUri s |}.

Definition setTranslatedText (v : string) (s : Screen) : Screen :=
  {| facing := facing s; isRecording := isRecording s; isProcessing := isProcessing s;
     processingProgress := processingProgress s; translatedText := v;
     showResult := showResult s; recordedVideoUri := recordedVideoUri s |}.

Definition setShowResult (v : bool) (s : Screen) : Screen :=
  {| facing := facing s; isRecording := isRecording s; isProcessing := isProcessing s;
     processingProgress := processingProgress s; translatedText := translatedText s;
     showResult := v; recordedVideoUri := recordedVideoUri s |}.

Definition setRecordedVideoUri (v : option string) (s : Screen) : Screen :=
  {| facing := facing s; isRecording := isRecording s; isProcessing := isProcessing s;
     processingProgress := processingProgress s; translatedText := translatedText s;
     showResult := showResult s; recordedVideoUri := v |}.

(** [Alert.alert(title, message)] *)
Definition Alert : Type := (string * string)%type.

(** What a handler leaves behind: the screen, the alerts shown, and the
    outside calls made through the processor. *)
Definition Handled : Type := (Screen * list Alert * list Event)%type.

(** The callback handed to [processVideo]:
    [setProcessingProgress(progress); if (currentText) setTranslatedText(currentText)]. *)
Definition progressCallback (s : Screen) (progress : nat)
    (currentLetter : option string) (currentText : string) : Screen :=
  let s1 := setProcessingProgress progress s in
  if (currentText =? "")%string then s1 else setTranslatedText currentText s1.

(** The screen after the callback has run for each progress call of a
    trace, in order. *)
Definition deliver (s : Screen) (e : Event) : Screen :=
  match e with
  | OnProgress progress currentLetter currentText =>
      progressCallback s progress currentLetter currentText
  | _ => s
  end.

(** [result || 'No signs detected'] *)
Definition orNoSigns (result : string) : string :=
  if (result =? "")%string then "No signs detected" else result.

Section Handlers.

Variable Model : Type.
Variable inference : string -> Model -> Completion (option Prediction).
Variable W : World.

(** [processRecordedVideo], with [processorRef.current] a
    [new SignLanguageProcessor()]. *)
Definition processRecordedVideo (hook : TensorflowModel Model) (videoUri : string)
    (s : Screen) : Handled :=
  match state hook with
  | loaded =>
      let s1 := setShowResult true (setProcessingProgress 0 (setIsProcessing true s)) in
      let run := processVideo inference W newSignLanguageProcessor videoUri
                   (model hook) in
      let s2 := fold_left deliver (trace run) s1 in
      match outcome run with
      | Normal result =>
          (setIsProcessing false (setTranslatedText (orNoSigns result) s2),
           [], trace run)
      | Thrown _ =>
          (setIsProcessing false (setShowResult false s2),
           [("Error", "Failed to process video. Please try again.")], trace run)
      end
  | _ => (s, [("Error", "Model is not loaded yet. Please wait.")], [])
  end.

(** [startRecording]; [cameraPresent] is [cameraRef.current], and
    [recordAsync] is how the recording ends: with a video and its uri,
    with no video, or rejected. *)
Definition startRecording (cameraPresent : bool)
    (recordAsync : Completion (option string))
    (hook : TensorflowModel Model) (s : Screen) : Handled :=
  if cameraPresent && negb (isRecording s) then
    let s1 := setRecordedVideoUri None (setTranslatedText "" (setIsRecording true s)) in
    match recordAsync with
    | Normal (Some uri) =>
        if (uri =? "")%string then (setIsRecording false s1, [], [])
        else
          let '(s2, alerts, calls) :=
            processRecordedVideo hook uri (setRecordedVideoUri (Some uri) s1) in
          (setIsRecording false s2, alerts, calls)
    | Normal None => (setIsRecording false s1, [], [])
    | Thrown _ => (setIsRecording false s1, [("Error", "Failed to record video")], [])
    end
  else (s, [], []).

End Handlers.

Arguments processRecordedVideo {Model} inference W hook videoUri s.
Arguments startRecording {Model} inference W cameraPresent recordAsync hook s.

End CameraScreen.

(** ** The home screen (app/home/index.tsx) *)

(** [setActiveId((prevId) => (prevId === id ? null : id))] *)
Definition handleActive (id : Z) (prevId : option Z) : option Z :=
  match prevId with
  | Some prev => if (prev =? id)%Z then None else Some id
  | None => Some id
  end.

(** [activeId] after the options with the given ids were pressed in
    order, from [useState(null)]. *)
Definition pressed (ids : list Z) : option Z :=
  fold_left (fun activeId id => handleActive id activeId) ids None.

(** ** ImagePreprocessorExample (services/ImagePreprocessor.example.ts) *)

Module ImagePreprocessorExample.

Inductive Action : Type :=
| resize (width height : nat)
| crop (originX originY width height : nat).

(** The calls that leave the class. *)
Inductive Call : Type :=
| ManipulateAsync (imageUri : string) (action : Action)
| DeleteAsync (fileUri : string).

Definition Traced (A : Type) : Type := (list Call * Completion A)%type.

Definition done {A} (a : A) : Traced A := ([], Normal a).

Definition andThen {A B} (m : Traced A) (k : A -> Traced B) : Traced B :=
  match m with
  | (t, Normal a) => let (t', r) := k a in (t ++ t', r)
  | (t, Thrown message) => (t, Thrown message)
  end.

Definition catching {A} (body : Traced A) (handler : string -> Traced A) : Traced A :=
  match body with
  | (t, Normal a) => (t, Normal a)
  | (t, Thrown message) => let (t', r) := handler message in (t ++ t', r)
  end.

(** What expo-image-manipulator and expo-file-system answer; [None] and
    [false] stand for a rejected promise. *)
Record Expo : Type := {
  manipulateAsync : string -> Action -> option string;
  deleteFile : string -> bool
}.

(** The value [preprocessFrame] resolves to. *)
Record Preprocessed : Type := {
  data : list float;
  width : nat;
  height : nat
}.

Definition resizeImage (X : Expo) (imageUri : string) (targetWidth targetHeight : nat)
    : Traced string :=
  ([ManipulateAsync imageUri (resize targetWidth targetHeight)],
   match manipulateAsync X imageUri (resize targetWidth targetHeight) with
   | Some uri => Normal uri
   | None => Thrown "manipulateAsync rejected"
   end).

Definition cropImage (X : Expo) (imageUri : string) (x y w h : nat) : Traced string :=
  ([ManipulateAsync imageUri (crop x y w h)],
   match manipulateAsync X imageUri (crop x y w h) with
   | Some uri => Normal uri
   | None => Thrown "manipulateAsync rejected"
   end).

(** [new Float32Array(28 * 28)], returned as it is. *)
Definition getNormalizedPixelData (imageUri : string) : Traced (list float) :=
  catching (done (repeat 0%float (28 * 28))) (fun error => ([], Thrown error)).

Definition preprocessFrame (X : Expo) (frameUri : string) : Traced Preprocessed :=
  catching
    (andThen (resizeImage X frameUri 28 28) (fun resizedUri =>
     andThen (getNormalizedPixelData resizedUri) (fun pixelData =>
     andThen (catching ([DeleteAsync resizedUri],
                        if deleteFile X resizedUri then Normal tt
                        else Thrown "deleteAsync rejected")
                       (fun _ => done tt)) (fun _ =>
     done {| data := pixelData; width := 28; height := 28 |}))))
    (fun error => ([], Thrown error)).

End ImagePreprocessorExample.

(** ** processVideo with a progress callback that may throw *)

(** The places where [processVideo] calls [onProgress]: before the
    extraction, before the frame loop, inside the loop at frame [i], and
    after the loop. *)
Inductive CallSite : Type :=
| BeforeExtraction
| BeforeLoop
| AtFrame (i : nat)
| AtEnd.

(** The caller's callback: it returns or throws.  It is the caller's code
    and may keep state of its own; as each call of one run is made at
    another place, what it does is given per place of call and
    arguments. *)
Definition Callback : Type :=
  CallSite -> nat -> option string -> string -> Completion unit.

(** [onProgress?.(progress, currentLetter, currentText)] with the caller's
    callback: the call is made, and what it throws is thrown on. *)
Definition callOnProgress (cb : Callback) (site : CallSite) (progress : nat)
    (currentLetter : option string) (currentText : string) : Eff unit :=
  ([OnProgress progress currentLetter currentText],
   cb site progress currentLetter currentText).

(** A callback that always returns. *)
Definition returning : Callback := fun _ _ _ _ => Normal tt.

(** A callback that throws at the call before the frame loop and returns
    everywhere else. *)
Definition throwingBeforeLoop : Callback :=
  fun site _ _ _ =>
    match site with
    | BeforeLoop => Thrown "callback failed"
    | _ => Normal tt
    end.

Section Calling.

Variable Model : Type.
Variable inference : string -> Model -> Completion (option Prediction).
Variable cb : Callback.

(** The frame loop of [processVideo], calling [cb]: a throw of the
    callback at line 152 leaves the loop before the deletion of the
    frame. *)
Fixpoint frameLoopCalling (W : World) (this : SignLanguageProcessor) (model : Model)
    (n i : nat) (rest : list string) (st : Locals) : Eff Locals :=
  match rest with
  | [] => ret st
  | frame :: rest' =>
      result <- processFrame inference W frame model ;;
      st' <- match result with
             | Some p =>
                 let st1 := observe this st p in
                 callOnProgress cb (AtFrame i) (frameProgress i n) (Some (letter p))
                   (translatedText st1) ;;;
                 ret st1
             | None => ret st
             end ;;
      tryCatch (callDelete W frame) (fun _ => ret tt) ;;;
      frameLoopCalling W this model n (S i) rest' st'
  end.

(** [processVideo], calling [cb]: whatever is thrown inside the [try],
    by the callback as well, is thrown on by the [catch]. *)
Definition processVideoCalling (W : World) (this : SignLanguageProcessor)
    (videoUri : string) (model : option Model) : Eff string :=
  match model with
  | None => throw "Model not loaded"
  | Some m =>
      tryCatch
        (callOnProgress cb BeforeExtraction 10 None "Extracting frames..." ;;;
         frames <- extractFrames W this videoUri ;;
         if (length frames =? 0)%nat
         then throw "No frames extracted from video"
         else
           callOnProgress cb BeforeLoop 30 None "Processing frames..." ;;;
           st <- frameLoopCalling W this m (length frames) 0 frames initialLocals ;;
           callOnProgress cb AtEnd 100 None (translatedText st) ;;;
           ret (translatedText st))
        (fun error => throw error)
  end.

End Calling.

Arguments frameLoopCalling {Model} inference cb W this model n i rest st.
Arguments processVideoCalling {Model} inference cb W this videoUri model.

(** The file calls of frames that were read and then deleted. *)
Definition readAndDeleted (frames : list string) : list Event :=
  flat_map (fun frame => [ReadAsString frame; DeleteFile frame]) frames.

(** * Properties *)

(** ** Strings *)

Lemma append_empty_r (s : string) : (s ++ "")%string = s.
Proof. induction s as [|c s IH]; simpl; [reflexivity | now rewrite IH]. Qed.

Lemma append_assoc (a b c : string) : ((a ++ b) ++ c = a ++ (b ++ c))%string.
Proof. induction a as [|x a IH]; simpl; [reflexivity | now rewrite IH]. Qed.

(** ** The run counter *)

Section RunCounter.

Variable this : SignLanguageProcessor.

Lemma decode_app (xs ys : list (option Prediction)) (st : Locals) :
  decode this (xs ++ ys) st = decode this ys (decode this xs st).
Proof. unfold decode. apply fold_left_app. Qed.

Lemma decode_cons (x : option Prediction) (xs : list (option Prediction))
    (st : Locals) :
  decode this (x :: xs) st = decode this xs (feed this st x).
Proof. reflexivity. Qed.

Lemma decode_nil (st : Locals) : decode this [] st = st.
Proof. reflexivity. Qed.

Lemma observe_new (st : Locals) (p : Prediction) :
  letter p <> lastPredictedLetter st ->
  CONSISTENCY_FRAMES this <> 0 ->
  observe this st p =
  {| translatedText := translatedText st;
     lastPredictedLetter := letter p;
     framesConsistent := 0 |}.
Proof.
  intros Hne HN. unfold observe.
  destruct (String.eqb_spec (letter p) (lastPredictedLetter st)) as [E|_];
    [contradiction|].
  cbn [framesConsistent].
  destruct (Nat.eqb_spec 0 (CONSISTENCY_FRAMES this)); [lia | reflexivity].
Qed.

Lemma observe_same (st : Locals) (p : Prediction) :
  letter p = lastPredictedLetter st ->
  S (framesConsistent st) <> CONSISTENCY_FRAMES this ->
  observe this st p =
  {| translatedText := translatedText st;
     lastPredictedLetter := lastPredictedLetter st;
     framesConsistent := S (framesConsistent st) |}.
Proof.
  intros He HN. unfold observe.
  destruct (String.eqb_spec (letter p) (lastPredictedLetter st)) as [_|N];
    [|contradiction].
  cbn [framesConsistent].
  destruct (Nat.eqb_spec (S (framesConsistent st)) (CONSISTENCY_FRAMES this));
    [contradiction | reflexivity].
Qed.

Lemma observe_commit (st : Locals) (p : Prediction) :
  letter p = lastPredictedLetter st ->
  S (framesConsistent st) = CONSISTENCY_FRAMES this ->
  observe this st p =
  {| translatedText := translatedText st ++ letter p;
     lastPredictedLetter := lastPredictedLetter st;
     framesConsistent := 0 |}.
Proof.
  intros He HN. unfold observe.
  destruct (String.eqb_spec (letter p) (lastPredictedLetter st)) as [_|N];
    [|contradiction].
  cbn [framesConsistent].
  destruct (Nat.eqb_spec (S (framesConsistent st)) (CONSISTENCY_FRAMES this));
    [reflexivity | contradiction].
Qed.

(** The confidence of a prediction plays no part in the step. *)
Lemma observe_confidence (st : Locals) (l : string) (c c' : float) :
  observe this st {| letter := l; confidence := c |} =
  observe this st {| letter := l; confidence := c' |}.
Proof. reflexivity. Qed.

(** [r] more frames of the running letter, short of a commit. *)
Lemma decode_partial_run (p : Prediction) (r : nat) : forall st,
  letter p = lastPredictedLetter st ->
  framesConsistent st + r < CONSISTENCY_FRAMES this ->
  decode this (repeat (Some p) r) st =
  {| translatedText := translatedText st;
     lastPredictedLetter := lastPredictedLetter st;
     framesConsistent := framesConsistent st + r |}.
Proof.
  induction r as [|r IH]; intros st He Hlt.
  - simpl. rewrite Nat.add_0_r. now destruct st.
  - cbn [repeat]. rewrite decode_cons. cbn [feed].
    rewrite observe_same by (assumption || lia).
    rewrite IH by (simpl; (assumption || lia)).
    simpl. f_equal. lia.
Qed.

(** A full block of [CONSISTENCY_FRAMES] frames of the running letter,
    from a counter at zero, commits the letter once. *)
Lemma decode_block (p : Prediction) (st : Locals) :
  letter p = lastPredictedLetter st ->
  framesConsistent st = 0 ->
  CONSISTENCY_FRAMES this <> 0 ->
  decode this (repeat (Some p) (CONSISTENCY_FRAMES this)) st =
  {| translatedText := translatedText st ++ letter p;
     lastPredictedLetter := lastPredictedLetter st;
     framesConsistent := 0 |}.
Proof.
  intros He H0 HN.
  destruct (CONSISTENCY_FRAMES this) as [|m] eqn:EN; [contradiction|].
  replace (S m) with (m + 1) by lia.
  rewrite repeat_app, decode_app.
  rewrite (decode_partial_run p m st) by (assumption || lia).
  cbn [repeat]. rewrite decode_cons, decode_nil. cbn [feed].
  rewrite observe_commit; cbn [framesConsistent lastPredictedLetter translatedText];
    try assumption; [reflexivity | lia].
Qed.

Lemma decode_blocks (p : Prediction) (q : nat) : forall st,
  letter p = lastPredictedLetter st ->
  framesConsistent st = 0 ->
  CONSISTENCY_FRAMES this <> 0 ->
  decode this (repeat (Some p) (q * CONSISTENCY_FRAMES this)) st =
  {| translatedText := translatedText st ++ copies q (letter p);
     lastPredictedLetter := lastPredictedLetter st;
     framesConsistent := 0 |}.
Proof.
  induction q as [|q IH]; intros st He H0 HN.
  - simpl. rewrite append_empty_r. destruct st; simpl in *; now subst.
  - cbn [Nat.mul]. rewrite repeat_app, decode_app.
    rewrite decode_block by assumption.
    rewrite IH by (simpl; (assumption || reflexivity)). simpl.
    now rewrite append_assoc.
Qed.

(** What the loop holds after [S k] frames of one letter from fresh
    locals: the first frame only installs the letter, with the counter at
    zero, so the letter is committed once per [CONSISTENCY_FRAMES] of the
    [k] frames that follow. *)
Lemma decode_single_label (p : Prediction) (k : nat) :
  letter p <> "" ->
  CONSISTENCY_FRAMES this <> 0 ->
  decode this (repeat (Some p) (S k)) initialLocals =
  {| translatedText := copies (k / CONSISTENCY_FRAMES this) (letter p);
     lastPredictedLetter := letter p;
     framesConsistent := k mod CONSISTENCY_FRAMES this |}.
Proof.
  intros Hl HN.
  change (S k) with (1 + k). rewrite repeat_app, decode_app.
  cbn [repeat]. rewrite decode_cons, decode_nil. cbn [feed].
  rewrite observe_new by (simpl; assumption).
  rewrite (Nat.div_mod_eq k (CONSISTENCY_FRAMES this)) at 1.
  rewrite (Nat.mul_comm (CONSISTENCY_FRAMES this)).
  rewrite repeat_app, decode_app.
  rewrite decode_blocks by (simpl; auto).
  rewrite decode_partial_run; simpl; auto.
  apply Nat.mod_upper_bound; assumption.
Qed.

End RunCounter.

(** ** The methods as traces and results *)

Lemma extractLoop_eq (W : World) (this : SignLanguageProcessor) (videoUri : string)
    (remaining : nat) : forall i frames,
  extractLoop W this videoUri remaining i frames =
  (extractTrace W this videoUri remaining i,
   Normal (frames ++ thumbnails W this videoUri remaining i)).
Proof.
  induction remaining as [|r IH]; intros i frames.
  - simpl. unfold ret. now rewrite app_nil_r.
  - cbn [extractLoop extractTrace thumbnails].
    unfold callGetThumbnail, bind, tryCatch, ret.
    destruct (getThumbnailAsync W videoUri (i * FRAME_INTERVAL_MS this)) as [uri|].
    + rewrite IH. simpl. now rewrite <- app_assoc.
    + simpl. now rewrite app_nil_r.
Qed.

Lemma extractFrames_eq (W : World) (this : SignLanguageProcessor) (videoUri : string) :
  extractFrames W this videoUri =
  (extractTrace W this videoUri frameCount 0,
   Normal (extractedFrames W this videoUri)).
Proof. unfold extractFrames. now rewrite extractLoop_eq. Qed.

Lemma thumbnails_length (W : World) (this : SignLanguageProcessor) (videoUri : string)
    (remaining : nat) : forall i,
  length (thumbnails W this videoUri remaining i) <= remaining.
Proof.
  induction remaining as [|r IH]; intros i; simpl; [lia|].
  destruct (getThumbnailAsync W videoUri (i * FRAME_INTERVAL_MS this)); simpl.
  - specialize (IH (S i)). lia.
  - lia.
Qed.

(** Each collected frame is the thumbnail at its own time offset. *)
Lemma thumbnails_nth (W : World) (this : SignLanguageProcessor) (videoUri : string)
    (remaining : nat) : forall i k,
  k < length (thumbnails W this videoUri remaining i) ->
  getThumbnailAsync W videoUri ((i + k) * FRAME_INTERVAL_MS this) =
  Some (nth k (thumbnails W this videoUri remaining i) "").
Proof.
  induction remaining as [|r IH]; intros i k Hk; simpl in *; [lia|].
  destruct (getThumbnailAsync W videoUri (i * FRAME_INTERVAL_MS this)) as [uri|] eqn:E;
    simpl in *; [|lia].
  destruct k as [|k].
  - now rewrite Nat.add_0_r.
  - replace (i + S k) with (S i + k) by lia. apply IH. lia.
Qed.

(** Collection stops short of [remaining] only at a rejected thumbnail. *)
Lemma thumbnails_stop (W : World) (this : SignLanguageProcessor) (videoUri : string)
    (remaining : nat) : forall i,
  length (thumbnails W this videoUri remaining i) < remaining ->
  getThumbnailAsync W videoUri
    ((i + length (thumbnails W this videoUri remaining i)) * FRAME_INTERVAL_MS this)
  = None.
Proof.
  induction remaining as [|r IH]; intros i Hlt; simpl in *; [lia|].
  destruct (getThumbnailAsync W videoUri (i * FRAME_INTERVAL_MS this)) as [uri|] eqn:E;
    simpl in *.
  - replace (i + S (length (thumbnails W this videoUri r (S i))))
      with (S i + length (thumbnails W this videoUri r (S i))) by lia.
    apply IH. lia.
  - now rewrite Nat.add_0_r.
Qed.

Section Pipeline.

Variable Model : Type.
Variable inference : string -> Model -> Completion (option Prediction).
Variable W : World.
Variable this : SignLanguageProcessor.
Variable model : Model.

(** [processFrame] always resolves: a rejected read and a throwing
    inference both end in [null]. *)
Lemma processFrame_eq (frameUri : string) :
  processFrame inference W frameUri model =
  ([ReadAsString frameUri], Normal (classified inference W model frameUri)).
Proof.
  unfold processFrame, classified, callReadAsString, bind, tryCatch, ret.
  destruct (readAsStringAsync W frameUri) as [base64|]; [|reflexivity].
  destruct (inference base64 model) as [result|message]; reflexivity.
Qed.

Lemma frameLoop_eq (n : nat) (rest : list string) : forall i st,
  frameLoop inference W this model n i rest st =
  (loopTrace this n i (results inference W model rest) st,
   Normal (decode this (map (classified inference W model) rest) st)).
Proof.
  induction rest as [|frame rest IH]; intros i st.
  - reflexivity.
  - unfold results. cbn [frameLoop map loopTrace]. rewrite processFrame_eq.
    rewrite decode_cons. fold (results inference W model rest).
    unfold bind at 1. cbn [app].
    destruct (classified inference W model frame) as [p|]; cbn [feed iterationTrace].
    + unfold onProgress, emit, ret, callDelete, tryCatch, bind at 1 2 3.
      rewrite IH. destruct (deleteAsync W frame); reflexivity.
    + unfold ret, callDelete, tryCatch, bind at 1 2.
      rewrite IH. destruct (deleteAsync W frame); reflexivity.
Qed.

(** The whole of [processVideo] with a model: what it calls, in order,
    and how it ends. *)
Lemma processVideo_eq (videoUri : string) :
  processVideo inference W this videoUri (Some model) =
  let frames := extractedFrames W this videoUri in
  let extraction :=
    [OnProgress 10 None "Extracting frames..."] ++
    extractTrace W this videoUri frameCount 0 in
  match frames with
  | [] => (extraction, Thrown "No frames extracted from video")
  | _ :: _ =>
      let st := decode this (map (classified inference W model) frames) initialLocals in
      (extraction ++
       [OnProgress 30 None "Processing frames..."] ++
       loopTrace this (length frames) 0 (results inference W model frames) initialLocals ++
       [OnProgress 100 None (translatedText st)],
       Normal (translatedText st))
  end.
Proof.
  unfold processVideo. rewrite extractFrames_eq.
  unfold onProgress, emit, bind at 1 2. cbn zeta.
  destruct (extractedFrames W this videoUri) as [|f fs] eqn:E.
  - cbn [length Nat.eqb]. unfold throw, tryCatch. cbn [app].
    now rewrite !app_nil_r.
  - cbn [length Nat.eqb]. rewrite frameLoop_eq.
    unfold bind, tryCatch, ret, throw. cbn [app]. rewrite ?app_nil_r.
    rewrite <- ?app_assoc. reflexivity.
Qed.

End Pipeline.

(** ** Facts about the frame loop *)

Lemma decode_text_extends (this : SignLanguageProcessor)
    (rs : list (option Prediction)) : forall st,
  exists suffix,
    translatedText (decode this rs st) = (translatedText st ++ suffix)%string.
Proof.
  induction rs as [|r rs IH]; intros st.
  - exists "". now rewrite append_empty_r.
  - rewrite decode_cons. destruct (IH (feed this st r)) as [s Hs]. rewrite Hs.
    destruct r as [p|]; cbn [feed]; [|now exists s].
    unfold observe.
    destruct (letter p =? lastPredictedLetter st)%string; cbn [framesConsistent];
      match goal with |- context [if ?b then _ else _] => destruct b end;
      cbn [translatedText];
      solve [ now exists s | exists (letter p ++ s)%string; now rewrite append_assoc ].
Qed.

Lemma decode_all_null (this : SignLanguageProcessor) (rs : list (option Prediction))
    (st : Locals) :
  Forall (fun r => r = None) rs -> decode this rs st = st.
Proof.
  induction 1 as [|r rs Hr _ IH]; [reflexivity|].
  subst r. now rewrite decode_cons.
Qed.

Lemma fileCalls_app (t u : list Event) : fileCalls (t ++ u) = fileCalls t ++ fileCalls u.
Proof. apply filter_app. Qed.

Lemma readCalls_app (t u : list Event) : readCalls (t ++ u) = readCalls t ++ readCalls u.
Proof. apply filter_app. Qed.

Lemma thumbnailCalls_app (t u : list Event) :
  thumbnailCalls (t ++ u) = thumbnailCalls t ++ thumbnailCalls u.
Proof. apply filter_app. Qed.

Lemma progressValues_app (t u : list Event) :
  progressValues (t ++ u) = progressValues t ++ progressValues u.
Proof. apply flat_map_app. Qed.

(** Extraction only asks for thumbnails. *)
Lemma extractTrace_calls (W : World) (this : SignLanguageProcessor) (videoUri : string)
    (remaining : nat) : forall i,
  fileCalls (extractTrace W this videoUri remaining i) = [] /\
  readCalls (extractTrace W this videoUri remaining i) = [] /\
  progressValues (extractTrace W this videoUri remaining i) = [] /\
  thumbnailCalls (extractTrace W this videoUri remaining i) =
    extractTrace W this videoUri remaining i /\
  length (thumbnails W this videoUri remaining i) <=
    length (extractTrace W this videoUri remaining i).
Proof.
  induction remaining as [|r IH]; intros i; cbn [extractTrace thumbnails].
  - repeat split; reflexivity || (simpl; lia).
  - destruct (getThumbnailAsync W videoUri (i * FRAME_INTERVAL_MS this)).
    + destruct (IH (S i)) as (Hf & Hr & Hp & Ht & Hl).
      repeat split; simpl; try assumption; [now f_equal | lia].
    + repeat split; simpl; lia.
Qed.

(** In the frame loop each frame is read, then deleted, before the next
    frame is touched; no thumbnail is asked for. *)
Lemma loopTrace_calls (this : SignLanguageProcessor) (n : nat)
    (rs : list (string * option Prediction)) : forall i st,
  fileCalls (loopTrace this n i rs st) =
    flat_map (fun fr => [ReadAsString (fst fr); DeleteFile (fst fr)]) rs /\
  readCalls (loopTrace this n i rs st) = map (fun fr => ReadAsString (fst fr)) rs /\
  thumbnailCalls (loopTrace this n i rs st) = [].
Proof.
  induction rs as [|[frame r] rs IH]; intros i st; cbn [loopTrace].
  - repeat split; reflexivity.
  - destruct (IH (S i) (feed this st r)) as (Hf & Hr & Ht).
    rewrite fileCalls_app, readCalls_app, thumbnailCalls_app, Hf, Hr, Ht.
    unfold iterationTrace. destruct r; repeat split; reflexivity.
Qed.

(** Frames the loop skips can be dropped from what it sees. *)
Lemma decode_skip_null (this : SignLanguageProcessor)
    (before after : list (option Prediction)) (st : Locals) :
  decode this (before ++ None :: after) st = decode this (before ++ after) st.
Proof. now rewrite !decode_app, decode_cons. Qed.

(** ** C4: no frames *)

(** C4.  When [extractFrames] yields no frame, [processVideo] with a
    model throws the error No frames extracted from video, having called
    only the first progress update and the thumbnail extraction: no frame
    is read or classified; and with or without a model it does not
    resolve to a text. *)
Theorem no_frames_is_an_error {Model : Type}
    (inference : string -> Model -> Completion (option Prediction))
    (W : World) (this : SignLanguageProcessor) (videoUri : string) (m : Model) :
  outcome (extractFrames W this videoUri) = Normal [] ->
  processVideo inference W this videoUri (Some m) =
    (OnProgress 10 None "Extracting frames..." :: trace (extractFrames W this videoUri),
     Thrown "No frames extracted from video") /\
  readCalls (trace (processVideo inference W this videoUri (Some m))) = [] /\
  forall model text,
    outcome (processVideo inference W this videoUri model) <> Normal text.
Proof.
  rewrite extractFrames_eq. cbn [outcome trace fst snd]. intros H.
  injection H as H.
  assert (E : processVideo inference W this videoUri (Some m) =
              (OnProgress 10 None "Extracting frames..." ::
               extractTrace W this videoUri frameCount 0,
               Thrown "No frames extracted from video")).
  { rewrite processVideo_eq. cbn zeta. now rewrite H. }
  split; [exact E|]. split.
  - rewrite E. cbn [trace fst readCalls filter].
    apply (extractTrace_calls W this videoUri frameCount 0).
  - intros [m'|] text.
    + rewrite processVideo_eq. cbn zeta. rewrite H. discriminate.
    + discriminate.
Qed.

Lemma no_frames_is_an_error_witness :
  processVideo placeholder (videoOf 0) newSignLanguageProcessor "video" (Some tt) =
    (OnProgress 10 None "Extracting frames..." ::
     trace (extractFrames (videoOf 0) newSignLanguageProcessor "video"),
     Thrown "No frames extracted from video") /\
  readCalls (trace (processVideo placeholder (videoOf 0) newSignLanguageProcessor
                      "video" (Some tt))) = [] /\
  forall model text,
    outcome (processVideo (Model := unit) placeholder (videoOf 0)
               newSignLanguageProcessor "video" model) <> Normal text.
Proof.
  apply (no_frames_is_an_error placeholder (videoOf 0) newSignLanguageProcessor
           "video" tt).
  reflexivity.
Defined.

(** ** The progress values *)

(** For every number of frames [extractFrames] can yield, the double
    arithmetic of the source gives the exact quotient used in
    [frameProgress]. *)
Lemma frameProgress_float_agrees (i n : nat) :
  i < n -> n <= 100 -> frameProgressFloat i n = Z.of_nat (frameProgress i n).
Proof.
  intros Hi Hn.
  assert (H : forallb (fun n' =>
                forallb (fun i' => Z.eqb (frameProgressFloat i' n')
                                         (Z.of_nat (frameProgress i' n')))
                        (seq 0 n'))
              (seq 0 101) = true) by (vm_compute; reflexivity).
  rewrite forallb_forall in H.
  specialize (H n). rewrite in_seq in H. specialize (H ltac:(lia)).
  rewrite forallb_forall in H.
  specialize (H i). rewrite in_seq in H. specialize (H ltac:(lia)).
  now apply Z.eqb_eq.
Qed.







(** ** C6: the progress callback *)




(** Extraction and classification do not depend on how deletions end. *)
Lemma thumbnails_withDelete (W : World) (answer : string -> bool)
    (this : SignLanguageProcessor) (videoUri : string) (remaining : nat) : forall i,
  thumbnails (withDelete W answer) this videoUri remaining i =
    thumbnails W this videoUri remaining i /\
  extractTrace (withDelete W answer) this videoUri remaining i =
    extractTrace W this videoUri remaining i.
Proof.
  induction remaining as [|r IH]; intros i; cbn [thumbnails extractTrace].
  - split; reflexivity.
  - cbn [withDelete getThumbnailAsync].
    destruct (getThumbnailAsync W videoUri (i * FRAME_INTERVAL_MS this));
      [|split; reflexivity].
    destruct (IH (S i)) as [-> ->]. split; reflexivity.
Qed.

Lemma classified_withDelete {Model : Type}
    (inference : string -> Model -> Completion (option Prediction))
    (W : World) (answer : string -> bool) (m : Model) (frames : list string) :
  map (classified inference (withDelete W answer) m) frames =
    map (classified inference W m) frames /\
  results inference (withDelete W answer) m frames = results inference W m frames.
Proof. split; reflexivity. Qed.

(** ** C9: at most 100 frames *)

(** C9.  [extractFrames] always resolves, to at most 100 frames: frame k
    is the thumbnail at k times the frame interval (33 ms as shipped),
    and fewer than 100 frames come back only when the thumbnail after the
    last one was rejected.  One call of [processVideo] therefore reads,
    and classifies, at most 100 frames. *)
Theorem extractFrames_yields_at_most_100_frames
    (W : World) (this : SignLanguageProcessor) (videoUri : string) :
  FRAME_INTERVAL_MS newSignLanguageProcessor = 33 /\
  exists frames,
    outcome (extractFrames W this videoUri) = Normal frames /\
    length frames <= 100 /\
    (forall k, k < length frames ->
       getThumbnailAsync W videoUri (k * FRAME_INTERVAL_MS this) =
       Some (nth k frames "")) /\
    (length frames < 100 ->
       getThumbnailAsync W videoUri (length frames * FRAME_INTERVAL_MS this) = None) /\
    (forall (Model : Type)
            (inference : string -> Model -> Completion (option Prediction))
            (model : option Model),
       length (readCalls (trace (processVideo inference W this videoUri model)))
       <= 100).
Proof.
  split; [reflexivity|].
  exists (extractedFrames W this videoUri).
  assert (Hlen : length (extractedFrames W this videoUri) <= 100)
    by apply thumbnails_length.
  rewrite extractFrames_eq. split; [reflexivity|]. split; [exact Hlen|].
  split; [|split].
  - intros k Hk. apply (thumbnails_nth W this videoUri frameCount 0 k Hk).
  - intros Hlt. apply (thumbnails_stop W this videoUri frameCount 0 Hlt).
  - intros Model inference [m|]; [|simpl; lia].
    rewrite processVideo_eq. cbn zeta.
    pose proof (extractTrace_calls W this videoUri frameCount 0) as (_ & Hr & _).
    destruct (extractedFrames W this videoUri) as [|f fs] eqn:E; cbn [trace fst].
    + rewrite readCalls_app, Hr. simpl. lia.
    + rewrite !readCalls_app, Hr.
      destruct (loopTrace_calls this (length (f :: fs))
                  (results inference W m (f :: fs)) 0 initialLocals) as (_ & Hrd & _).
      rewrite Hrd. cbn [readCalls filter app]. rewrite app_nil_r.
      unfold results. rewrite !length_map. exact Hlen.
Qed.

(** ** C10: the shipped classifier *)

(** C10.  With the classifier as shipped, which resolves to null for
    every frame, a call of [processVideo] that resolves resolves to the
    empty text; and it does resolve whenever there is a model and at
    least one frame was extracted. *)
Theorem shipped_classifier_gives_the_empty_text {Model : Type}
    (W : World) (this : SignLanguageProcessor) (videoUri : string)
    (model : option Model) (text : string) :
  outcome (processVideo placeholder W this videoUri model) = Normal text ->
  text = "" /\
  (forall (frame : string) (m : Model),
     outcome (processFrame placeholder W frame m) = Normal None) /\
  (forall m : Model,
     extractedFrames W this videoUri = [] \/
     outcome (processVideo placeholder W this videoUri (Some m)) = Normal "").
Proof.
  assert (Hnull : forall (m : Model) frames,
            decode this (map (classified placeholder W m) frames) initialLocals =
            initialLocals).
  { intros m frames. apply decode_all_null. apply Forall_forall.
    intros r Hin. apply in_map_iff in Hin as (frame & <- & _).
    unfold classified, placeholder. now destruct (readAsStringAsync W frame). }
  intros H. split; [|split].
  - destruct model as [m|]; [|discriminate].
    rewrite processVideo_eq in H. cbn zeta in H.
    destruct (extractedFrames W this videoUri); [discriminate|].
    rewrite Hnull in H. cbn [outcome snd] in H. now injection H as <-.
  - intros frame m. rewrite processFrame_eq. cbn [outcome snd].
    unfold classified, placeholder. now destruct (readAsStringAsync W frame).
  - intros m. rewrite processVideo_eq. cbn zeta.
    destruct (extractedFrames W this videoUri); [now left|right].
    now rewrite Hnull.
Qed.

Lemma shipped_classifier_gives_the_empty_text_witness :
  "" = "" /\
  (forall frame (m : unit),
     outcome (processFrame placeholder (videoOf 2) frame m) = Normal None) /\
  (forall m : unit,
     extractedFrames (videoOf 2) newSignLanguageProcessor "video" = [] \/
     outcome (processVideo placeholder (videoOf 2) newSignLanguageProcessor "video"
                (Some m)) = Normal "").
Proof.
  apply (shipped_classifier_gives_the_empty_text (videoOf 2) newSignLanguageProcessor
           "video" (Some tt) "").
  reflexivity.
Defined.

(** ** processVideo with a callback that may throw *)

Lemma classified_placeholder {Model : Type} (W : World) (m : Model) (frame : string) :
  classified placeholder W m frame = None.
Proof. unfold classified, placeholder. now destruct (readAsStringAsync W frame). Qed.

Section CallingFacts.

Variable Model : Type.
Variable inference : string -> Model -> Completion (option Prediction).
Variable cb : Callback.
Variable W : World.
Variable this : SignLanguageProcessor.
Variable m : Model.

(** One iteration of the loop. *)
Lemma frameLoopCalling_cons (n i : nat) (frame : string) (rest : list string)
    (st : Locals) :
  frameLoopCalling inference cb W this m n i (frame :: rest) st =
  match classified inference W m frame with
  | Some p =>
      let call := OnProgress (frameProgress i n) (Some (letter p))
                    (translatedText (observe this st p)) in
      match cb (AtFrame i) (frameProgress i n) (Some (letter p))
               (translatedText (observe this st p)) with
      | Normal _ =>
          let (t, r) := frameLoopCalling inference cb W this m n (S i) rest
                          (observe this st p) in
          ([ReadAsString frame; call; DeleteFile frame] ++ t, r)
      | Thrown message => ([ReadAsString frame; call], Thrown message)
      end
  | None =>
      let (t, r) := frameLoopCalling inference cb W this m n (S i) rest st in
      ([ReadAsString frame; DeleteFile frame] ++ t, r)
  end.
Proof.
  cbn [frameLoopCalling]. rewrite processFrame_eq.
  unfold callOnProgress, ret, callDelete, tryCatch, bind.
  destruct (classified inference W m frame) as [p|]; cbv zeta.
  - destruct (cb (AtFrame i) (frameProgress i n) (Some (letter p))
                (translatedText (observe this st p))) as [[]|message];
      [|reflexivity].
    destruct (deleteAsync W frame);
      destruct (frameLoopCalling inference cb W this m n (S i) rest
                  (observe this st p)); reflexivity.
  - destruct (deleteAsync W frame);
      destruct (frameLoopCalling inference cb W this m n (S i) rest st);
      reflexivity.
Qed.

(** The frame loop either runs to its end, with the calls and the locals
    of [frameLoop], or stops where the callback throws: after the read of
    a frame with a prediction and the call of the callback, and before
    the deletion of that frame. *)
Lemma frameLoopCalling_cases (n : nat) (rest : list string) : forall i st,
  frameLoopCalling inference cb W this m n i rest st =
    (loopTrace this n i (results inference W m rest) st,
     Normal (decode this (map (classified inference W m) rest) st)) \/
  exists done frame after p message,
    rest = done ++ frame :: after /\
    classified inference W m frame = Some p /\
    let st1 := observe this (decode this (map (classified inference W m) done) st) p in
    let call := OnProgress (frameProgress (i + length done) n) (Some (letter p))
                  (translatedText st1) in
    cb (AtFrame (i + length done)) (frameProgress (i + length done) n)
       (Some (letter p)) (translatedText st1) = Thrown message /\
    frameLoopCalling inference cb W this m n i rest st =
      (loopTrace this n i (results inference W m done) st ++
       [ReadAsString frame; call],
       Thrown message).
Proof.
  induction rest as [|frame rest IH]; intros i st; [now left|].
  rewrite frameLoopCalling_cons.
  destruct (classified inference W m frame) as [p|] eqn:Ec; cbv zeta.
  - destruct (cb (AtFrame i) (frameProgress i n) (Some (letter p))
                (translatedText (observe this st p))) as [[]|message] eqn:Ecb.
    + destruct (IH (S i) (observe this st p))
        as [IHl | (done & f & after & p' & msg & Hrest & Hc & Hthrow)].
      * left. rewrite IHl. unfold results. cbn [map loopTrace].
        rewrite Ec, decode_cons. reflexivity.
      * right. cbv zeta in Hthrow. destruct Hthrow as [Hcb Heq].
        exists (frame :: done), f, after, p', msg.
        split; [now rewrite Hrest|]. split; [exact Hc|].
        cbn [length map]. rewrite decode_cons, Ec. cbn [feed].
        rewrite Nat.add_succ_r. split; [exact Hcb|].
        rewrite Heq. unfold results. cbn [map loopTrace]. rewrite Ec.
        cbn [feed iterationTrace app]. reflexivity.
    + right. exists [], frame, rest, p, message.
      split; [reflexivity|]. split; [exact Ec|].
      cbn [length map]. rewrite decode_nil, Nat.add_0_r. split; [exact Ecb|].
      reflexivity.
  - destruct (IH (S i) st)
      as [IHl | (done & f & after & p' & msg & Hrest & Hc & Hthrow)].
    + left. rewrite IHl. unfold results. cbn [map loopTrace].
      rewrite Ec, decode_cons. reflexivity.
    + right. cbv zeta in Hthrow. destruct Hthrow as [Hcb Heq].
      exists (frame :: done), f, after, p', msg.
      split; [now rewrite Hrest|]. split; [exact Hc|].
      cbn [length map]. rewrite decode_cons, Ec. cbn [feed].
      rewrite Nat.add_succ_r. split; [exact Hcb|].
      rewrite Heq. unfold results. cbn [map loopTrace]. rewrite Ec.
      cbn [feed iterationTrace app]. reflexivity.
Qed.

(** The whole of [processVideoCalling] with a model. *)
Lemma processVideoCalling_cases (videoUri : string) :
  processVideoCalling inference cb W this videoUri (Some m) =
  let frames := extractedFrames W this videoUri in
  let call10 := OnProgress 10 None "Extracting frames..." in
  let call30 := OnProgress 30 None "Processing frames..." in
  match cb BeforeExtraction 10 None "Extracting frames..." with
  | Thrown message => ([call10], Thrown message)
  | Normal _ =>
      match frames with
      | [] => ([call10] ++ extractTrace W this videoUri frameCount 0,
               Thrown "No frames extracted from video")
      | _ :: _ =>
          match cb BeforeLoop 30 None "Processing frames..." with
          | Thrown message =>
              ([call10] ++ extractTrace W this videoUri frameCount 0 ++ [call30],
               Thrown message)
          | Normal _ =>
              match frameLoopCalling inference cb W this m (length frames) 0 frames
                      initialLocals with
              | (t, Thrown message) =>
                  ([call10] ++ extractTrace W this videoUri frameCount 0 ++
                   [call30] ++ t,
                   Thrown message)
              | (t, Normal st) =>
                  ([call10] ++ extractTrace W this videoUri frameCount 0 ++
                   [call30] ++ t ++ [OnProgress 100 None (translatedText st)],
                   match cb AtEnd 100 None (translatedText st) with
                   | Normal _ => Normal (translatedText st)
                   | Thrown message => Thrown message
                   end)
              end
          end
      end
  end.
Proof.
  unfold processVideoCalling. rewrite extractFrames_eq.
  unfold callOnProgress. cbv zeta.
  destruct (cb BeforeExtraction 10 None "Extracting frames...") as [[]|message];
    [|reflexivity].
  unfold bind at 1 2.
  destruct (extractedFrames W this videoUri) as [|f fs].
  - cbn [length Nat.eqb]. unfold throw, tryCatch. cbn [app].
    now rewrite !app_nil_r.
  - cbn [length Nat.eqb].
    destruct (cb BeforeLoop 30 None "Processing frames...") as [[]|message].
    + unfold bind at 1 2.
      destruct (frameLoopCalling inference cb W this m (S (length fs)) 0 (f :: fs)
                  initialLocals) as [t [st|message]].
      * unfold bind, ret, throw, tryCatch.
        destruct (cb AtEnd 100 None (translatedText st)) as [[]|message];
          cbn [app]; rewrite ?app_nil_r, <- ?app_assoc; reflexivity.
      * unfold tryCatch, throw. cbn [app].
        rewrite ?app_nil_r, <- ?app_assoc. reflexivity.
    + unfold bind, tryCatch, throw. cbn [app].
      rewrite ?app_nil_r, <- ?app_assoc. reflexivity.
Qed.

End CallingFacts.

(** With a callback that returns, the loop and [processVideoCalling] are
    [frameLoop] and [processVideo]. *)
Lemma frameLoopCalling_returning {Model : Type}
    (inference : string -> Model -> Completion (option Prediction))
    (W : World) (this : SignLanguageProcessor) (m : Model) (n i : nat)
    (rest : list string) (st : Locals) :
  frameLoopCalling inference returning W this m n i rest st =
  frameLoop inference W this m n i rest st.
Proof.
  rewrite frameLoop_eq.
  destruct (frameLoopCalling_cases Model inference returning W this m n rest i st)
    as [H | (done & f & after & p & message & _ & _ & H)]; [exact H|].
  cbv zeta in H. destruct H as [H _]. discriminate.
Qed.

Lemma processVideoCalling_returning {Model : Type}
    (inference : string -> Model -> Completion (option Prediction))
    (W : World) (this : SignLanguageProcessor) (videoUri : string)
    (model : option Model) :
  processVideoCalling inference returning W this videoUri model =
  processVideo inference W this videoUri model.
Proof.
  destruct model as [m|]; [|reflexivity].
  rewrite processVideoCalling_cases, processVideo_eq. cbv zeta.
  unfold returning at 1 2.
  destruct (extractedFrames W this videoUri) as [|f fs]; [reflexivity|].
  rewrite frameLoopCalling_returning, frameLoop_eq. unfold returning.
  rewrite <- !app_assoc. reflexivity.
Qed.

(** With the classifier as shipped the callback is not called inside the
    loop: every frame is read and deleted. *)
Lemma frameLoopCalling_placeholder {Model : Type} (cb : Callback)
    (W : World) (this : SignLanguageProcessor) (m : Model) (n : nat)
    (rest : list string) : forall i st,
  frameLoopCalling placeholder cb W this m n i rest st =
  (readAndDeleted rest, Normal st).
Proof.
  induction rest as [|frame rest IH]; intros i st; [reflexivity|].
  rewrite frameLoopCalling_cons, classified_placeholder, IH. reflexivity.
Qed.

Lemma frameLoopCalling_withDelete {Model : Type}
    (inference : string -> Model -> Completion (option Prediction)) (cb : Callback)
    (W : World) (answer : string -> bool) (this : SignLanguageProcessor) (m : Model)
    (n : nat) (rest : list string) : forall i st,
  frameLoopCalling inference cb (withDelete W answer) this m n i rest st =
  frameLoopCalling inference cb W this m n i rest st.
Proof.
  induction rest as [|frame rest IH]; intros i st; [reflexivity|].
  rewrite !frameLoopCalling_cons.
  change (classified inference (withDelete W answer) m frame)
    with (classified inference W m frame).
  destruct (classified inference W m frame) as [p|]; cbv zeta; rewrite ?IH;
    reflexivity.
Qed.

Lemma processVideoCalling_withDelete {Model : Type}
    (inference : string -> Model -> Completion (option Prediction)) (cb : Callback)
    (W : World) (answer : string -> bool) (this : SignLanguageProcessor)
    (videoUri : string) (model : option Model) :
  processVideoCalling inference cb (withDelete W answer) this videoUri model =
  processVideoCalling inference cb W this videoUri model.
Proof.
  destruct model as [m|]; [|reflexivity].
  rewrite !processVideoCalling_cases. cbv zeta. unfold extractedFrames.
  destruct (thumbnails_withDelete W answer this videoUri frameCount 0) as [-> ->].
  now rewrite frameLoopCalling_withDelete.
Qed.

Lemma readAndDeleted_calls (frames : list string) :
  fileCalls (readAndDeleted frames) = readAndDeleted frames /\
  readCalls (readAndDeleted frames) = map ReadAsString frames /\
  thumbnailCalls (readAndDeleted frames) = [].
Proof.
  induction frames as [|f fs (IH1 & IH2 & IH3)]; [repeat split|].
  cbn [readAndDeleted flat_map app] in *. fold (readAndDeleted fs) in *.
  cbn [fileCalls readCalls thumbnailCalls filter map].
  fold (fileCalls (readAndDeleted fs)) (readCalls (readAndDeleted fs))
       (thumbnailCalls (readAndDeleted fs)).
  rewrite IH1, IH2, IH3. repeat split.
Qed.

(** ** C5: which failures reach the caller *)

(** C5 (as claimed, refuted).  The model is loaded and the video gives two
    frames, so neither session precondition fails; the classifier is the
    shipped one; the caller's callback throws when called with 30.
    [processVideo] then fails with the error of the callback, which is
    neither Model not loaded nor No frames extracted from video. *)
Lemma an_error_of_the_callback_reaches_the_caller :
  let run := processVideoCalling placeholder throwingBeforeLoop (videoOf 2)
               newSignLanguageProcessor "video" (Some tt) in
  outcome (extractFrames (videoOf 2) newSignLanguageProcessor "video")
    = Normal ["frame-a"; "frame-b"] /\
  run = ([OnProgress 10 None "Extracting frames...";
          GetThumbnail "video" 0; GetThumbnail "video" 33; GetThumbnail "video" 66;
          OnProgress 30 None "Processing frames..."],
         Thrown "callback failed") /\
  "callback failed" <> "Model not loaded" /\
  "callback failed" <> "No frames extracted from video".
Proof. vm_compute. repeat split; discriminate. Qed.

(** C5 (amended).  [processVideo] fails in three cases only: without a
    model, with Model not loaded, before anything else is done; with a
    model but no extracted frame, with No frames extracted from video;
    and when the caller's own progress callback throws, with the error
    of the callback, the call of the callback being the last thing done.
    In every other case it resolves to the text of the loop over all
    frames.  [processFrame] itself never throws: a rejected read or a
    throwing inference resolves to null, which the loop skips, so the
    locals and the text committed so far stay as they were and the loop
    goes on; the text only ever grows. *)
Theorem failures_that_reach_the_caller {Model : Type}
    (inference : string -> Model -> Completion (option Prediction)) (cb : Callback)
    (W : World) (this : SignLanguageProcessor) (videoUri : string) :
  processVideoCalling inference cb W this videoUri None
    = ([], Thrown "Model not loaded") /\
  (forall m : Model,
     match outcome (processVideoCalling inference cb W this videoUri (Some m)) with
     | Thrown message =>
         (outcome (extractFrames W this videoUri) = Normal [] /\
          message = "No frames extracted from video") \/
         (exists site progress currentLetter currentText calls,
            cb site progress currentLetter currentText = Thrown message /\
            trace (processVideoCalling inference cb W this videoUri (Some m)) =
              calls ++ [OnProgress progress currentLetter currentText])
     | Normal text =>
         exists frames,
           outcome (extractFrames W this videoUri) = Normal frames /\
           frames <> [] /\
           text = translatedText
                    (decode this (map (classified inference W m) frames)
                       initialLocals)
     end) /\
  (forall frame (m : Model),
     processFrame inference W frame m =
       ([ReadAsString frame], Normal (classified inference W m frame)) /\
     processFrame inference (withoutReads W) frame m =
       ([ReadAsString frame], Normal None) /\
     processFrame alwaysThrows W frame m = ([ReadAsString frame], Normal None)) /\
  (forall (rs : list (option Prediction)) (st : Locals),
     decode this (rs ++ [None]) st = decode this rs st) /\
  (forall (rs more : list (option Prediction)) (st : Locals),
     exists suffix,
       translatedText (decode this (rs ++ more) st) =
       (translatedText (decode this rs st) ++ suffix)%string).
Proof.
  split; [reflexivity|]. split; [|split; [|split]].
  - intros m. rewrite processVideoCalling_cases, extractFrames_eq. cbv zeta.
    cbn [outcome snd].
    destruct (cb BeforeExtraction 10 None "Extracting frames...")
      as [[]|message] eqn:E10.
    2:{ cbn [outcome snd trace fst]. right.
        exists BeforeExtraction, 10, None, "Extracting frames...", [].
        split; [exact E10 | reflexivity]. }
    destruct (extractedFrames W this videoUri) as [|f fs] eqn:Ef.
    { cbn [outcome snd]. now left. }
    destruct (cb BeforeLoop 30 None "Processing frames...") as [[]|message] eqn:E30.
    2:{ cbn [outcome snd trace fst]. right.
        exists BeforeLoop, 30, None, "Processing frames...".
        eexists. split; [exact E30|]. rewrite !app_assoc. reflexivity. }
    destruct (frameLoopCalling_cases Model inference cb W this m (length (f :: fs))
                (f :: fs) 0 initialLocals)
      as [-> | (done & frame & after & p & message & _ & _ & H)].
    + cbn [outcome snd trace fst].
      destruct (cb AtEnd 100 None _) as [[]|message] eqn:E100.
      * exists (f :: fs). repeat split. discriminate.
      * right. exists AtEnd, 100, None. do 2 eexists.
        split; [exact E100|]. rewrite !app_assoc. reflexivity.
    + cbv zeta in H. destruct H as [Hcb ->]. cbn [outcome snd trace fst].
      right. exists (AtFrame (0 + length done)). do 4 eexists.
      split; [exact Hcb|].
      change [ReadAsString frame; ?c] with ([ReadAsString frame] ++ [c]).
      rewrite !app_assoc. reflexivity.
  - intros frame m. rewrite !processFrame_eq. repeat split.
    unfold classified, alwaysThrows.
    destruct (readAsStringAsync W frame); reflexivity.
  - intros rs st. now rewrite decode_app, decode_cons, decode_nil.
  - intros rs more st. rewrite decode_app. apply decode_text_extends.
Qed.

(** ** C7: cancellation *)




(** ** C8: the frame file is deleted in every iteration *)

(** C8.  With the classifier as shipped, for every callback, returning
    or throwing: the frame loop reads each frame and then deletes it,
    rejected read or not, before the next frame is read, and completes;
    and the file calls of [processVideo] are the read and the deletion of
    each extracted frame in turn, when there is a model and the callback
    returns at its first two calls, so that the frames are iterated, and
    none otherwise.  For any classifier and any callback, a frame loop
    that completes has read and then deleted every frame in turn, and
    whether the deletions succeed or are rejected changes neither the
    calls made nor the outcome of the loop or of [processVideo]. *)
Theorem every_iterated_frame_is_deleted {Model : Type}
    (inference : string -> Model -> Completion (option Prediction)) (cb : Callback)
    (W : World) (this : SignLanguageProcessor) (videoUri : string)
    (m : Model) (model : option Model) :
  (forall n i frames st,
     frameLoopCalling placeholder cb W this m n i frames st =
       (readAndDeleted frames, Normal st)) /\
  fileCalls (trace (processVideoCalling placeholder cb W this videoUri model)) =
    match model,
          cb BeforeExtraction 10 None "Extracting frames...",
          cb BeforeLoop 30 None "Processing frames..." with
    | Some _, Normal _, Normal _ =>
        readAndDeleted (extractedFrames W this videoUri)
    | _, _, _ => []
    end /\
  (forall n i frames st st',
     outcome (frameLoopCalling inference cb W this m n i frames st) = Normal st' ->
     fileCalls (trace (frameLoopCalling inference cb W this m n i frames st)) =
       readAndDeleted frames) /\
  (forall answer n i frames st,
     frameLoopCalling inference cb (withDelete W answer) this m n i frames st =
     frameLoopCalling inference cb W this m n i frames st) /\
  (forall answer,
     processVideoCalling inference cb (withDelete W answer) this videoUri model =
     processVideoCalling inference cb W this videoUri model).
Proof.
  split; [intros; apply frameLoopCalling_placeholder|].
  split; [|split; [|split]].
  - destruct model as [m'|];
      [|now destruct (cb BeforeExtraction 10 None "Extracting frames...");
          destruct (cb BeforeLoop 30 None "Processing frames...")].
    rewrite processVideoCalling_cases. cbv zeta.
    destruct (extractTrace_calls W this videoUri frameCount 0) as (Hx & _).
    destruct (cb BeforeExtraction 10 None "Extracting frames...") as [[]|m10];
      [|now destruct (cb BeforeLoop 30 None "Processing frames...")].
    destruct (extractedFrames W this videoUri) as [|f fs].
    { cbn [trace fst]. rewrite fileCalls_app, Hx.
      now destruct (cb BeforeLoop 30 None "Processing frames..."). }
    destruct (cb BeforeLoop 30 None "Processing frames...") as [[]|m30].
    + rewrite frameLoopCalling_placeholder. cbn [trace fst].
      rewrite !fileCalls_app, Hx, (proj1 (readAndDeleted_calls (f :: fs))).
      cbn [fileCalls filter app]. now rewrite app_nil_r.
    + cbn [trace fst]. rewrite !fileCalls_app, Hx. reflexivity.
  - intros n i frames st st' H.
    destruct (frameLoopCalling_cases Model inference cb W this m n frames i st)
      as [Heq | (done & frame & after & p & message & _ & _ & Hthrow)].
    + rewrite Heq. cbn [trace fst].
      rewrite (proj1 (loopTrace_calls this n _ i st)).
      unfold results, readAndDeleted. rewrite flat_map_concat_map, map_map.
      now rewrite <- flat_map_concat_map.
    + cbv zeta in Hthrow. destruct Hthrow as [_ Heq].
      rewrite Heq in H. discriminate.
  - intros. apply frameLoopCalling_withDelete.
  - intros. apply processVideoCalling_withDelete.
Qed.

(** * Further properties *)

(** ** extractFrames: the thumbnail requests *)

Lemma extractTrace_requests (W : World) (this : SignLanguageProcessor)
    (videoUri : string) (remaining : nat) : forall i,
  extractTrace W this videoUri remaining i =
  map (fun k => GetThumbnail videoUri (k * FRAME_INTERVAL_MS this))
      (seq i (Nat.min remaining (S (length (thumbnails W this videoUri remaining i))))).
Proof.
  induction remaining as [|r IH]; intros i; cbn [extractTrace thumbnails].
  - reflexivity.
  - destruct (getThumbnailAsync W videoUri (i * FRAME_INTERVAL_MS this)) as [uri|].
    + rewrite IH. cbn [length]. rewrite <- Nat.succ_min_distr. reflexivity.
    + cbn [length]. rewrite <- Nat.succ_min_distr, Nat.min_0_r. reflexivity.
Qed.

(** X1.  [extractFrames] never throws, whatever the thumbnails do.  It
    asks for the thumbnails at the offsets 0, 1, 2, ... times the frame
    interval, in this order, one for each frame it returns and one more,
    the rejected one, when it returns fewer than 100 frames; nothing is
    asked for after a rejected thumbnail or after the hundredth. *)
Theorem extractFrames_requests
    (W : World) (this : SignLanguageProcessor) (videoUri : string) :
  exists frames,
    extractFrames W this videoUri =
      (map (fun k => GetThumbnail videoUri (k * FRAME_INTERVAL_MS this))
           (seq 0 (Nat.min 100 (S (length frames)))),
       Normal frames) /\
    length (trace (extractFrames W this videoUri)) <= 100 /\
    forall message, outcome (extractFrames W this videoUri) <> Thrown message.
Proof.
  exists (extractedFrames W this videoUri).
  rewrite extractFrames_eq, extractTrace_requests.
  fold (extractedFrames W this videoUri). split; [reflexivity|].
  cbn [trace outcome fst snd]. split; [|discriminate].
  rewrite length_map, length_seq. apply Nat.le_min_l.
Qed.

(** ** The run counter stays below the required number *)

Lemma observe_counter_below (this : SignLanguageProcessor) (st : Locals)
    (p : Prediction) :
  framesConsistent st < CONSISTENCY_FRAMES this ->
  framesConsistent (observe this st p) < CONSISTENCY_FRAMES this.
Proof.
  intros H. unfold observe.
  destruct (letter p =? lastPredictedLetter st)%string; cbn [framesConsistent];
    match goal with |- context [if ?b then _ else _] => destruct b eqn:E end;
    cbn [framesConsistent]; try lia.
  apply Nat.eqb_neq in E. lia.
Qed.

(** X2.  The counter [framesConsistent] never reaches
    [CONSISTENCY_FRAMES]: if it is below it when the frame loop starts,
    as it is for the fresh locals of [processVideo], it is below it in
    the locals the loop ends with, whatever the frames are classified
    as. *)
Theorem frameLoop_counter_below {Model : Type}
    (inference : string -> Model -> Completion (option Prediction))
    (W : World) (this : SignLanguageProcessor) (m : Model)
    (n i : nat) (frames : list string) (st : Locals) :
  framesConsistent st < CONSISTENCY_FRAMES this ->
  exists st',
    outcome (frameLoop inference W this m n i frames st) = Normal st' /\
    framesConsistent st' < CONSISTENCY_FRAMES this.
Proof.
  intros H. rewrite frameLoop_eq. eexists. split; [reflexivity|].
  generalize (map (classified inference W m) frames). intros rs.
  revert st H. induction rs as [|r rs IH]; intros st H; [exact H|].
  rewrite decode_cons. apply IH.
  destruct r as [p|]; cbn [feed]; [now apply observe_counter_below | exact H].
Qed.

Lemma frameLoop_counter_below_witness :
  exists st',
    outcome (frameLoop alwaysA (videoOf 17) newSignLanguageProcessor tt 17 0
               (map frameName (seq 0 17)) initialLocals) = Normal st' /\
    framesConsistent st' < CONSISTENCY_FRAMES newSignLanguageProcessor.
Proof.
  apply (frameLoop_counter_below alwaysA (videoOf 17) newSignLanguageProcessor tt
           17 0 (map frameName (seq 0 17)) initialLocals).
  vm_compute. lia.
Defined.

(** ** How many letters a session can commit *)

Lemma length_append (a b : string) :
  String.length (a ++ b)%string = String.length a + String.length b.
Proof. induction a as [|c a IH]; simpl; [reflexivity | now rewrite IH]. Qed.

(** Each committed letter is paid for by [CONSISTENCY_FRAMES] predicted
    frames. *)
Lemma decode_accounting (this : SignLanguageProcessor)
    (rs : list (option Prediction)) : forall st,
  Forall oneCharacter rs ->
  CONSISTENCY_FRAMES this * String.length (translatedText (decode this rs st)) +
    framesConsistent (decode this rs st) <=
  CONSISTENCY_FRAMES this * String.length (translatedText st) +
    framesConsistent st + length (lettersOf rs).
Proof.
  induction rs as [|r rs IH]; intros st Hall; [simpl; lia|].
  inversion Hall as [|r' rs' Hr Hrs]; subst.
  rewrite decode_cons. specialize (IH (feed this st r) Hrs).
  destruct r as [p|]; cbn [feed lettersOf flat_map] in *; [|exact IH].
  fold (lettersOf rs) in *. cbn [oneCharacter] in Hr.
  rewrite length_app. cbn [length].
  assert (Hstep :
    CONSISTENCY_FRAMES this * String.length (translatedText (observe this st p)) +
      framesConsistent (observe this st p) <=
    CONSISTENCY_FRAMES this * String.length (translatedText st) +
      framesConsistent st + 1).
  { unfold observe.
    destruct (letter p =? lastPredictedLetter st)%string; cbn [framesConsistent];
      match goal with |- context [if ?b then _ else _] => destruct b eqn:E end;
      cbn [framesConsistent translatedText]; rewrite ?length_append, ?Hr;
      try apply Nat.eqb_eq in E; nia. }
  lia.
Qed.

(** X3.  When every predicted letter is a single character, a call of
    [processVideo] that resolves has consumed at least
    [CONSISTENCY_FRAMES] extracted frames for each character of the text
    it returns; as at most 100 frames are extracted, the shipped 15
    frames per letter allow a text of at most 6 characters. *)
Theorem transcript_length_is_bounded_by_the_frames {Model : Type}
    (inference : string -> Model -> Completion (option Prediction))
    (W : World) (this : SignLanguageProcessor) (videoUri : string)
    (model : option Model) (text : string) :
  (forall base64 m p,
     inference base64 m = Normal (Some p) -> String.length (letter p) = 1) ->
  outcome (processVideo inference W this videoUri model) = Normal text ->
  CONSISTENCY_FRAMES this * String.length text
    <= length (readCalls (trace (processVideo inference W this videoUri model))) /\
  CONSISTENCY_FRAMES this * String.length text <= 100.
Proof.
  intros Hone H. destruct model as [m|]; [|discriminate].
  rewrite processVideo_eq in H |- *. cbn zeta in H |- *.
  pose proof (thumbnails_length W this videoUri frameCount 0) as Hlen.
  fold (extractedFrames W this videoUri) in Hlen.
  destruct (extractedFrames W this videoUri) as [|f fs]; [discriminate|].
  cbn [outcome snd] in H. injection H as H. subst text. cbn [trace fst].
  set (frames := f :: fs) in *.
  assert (Hreads : length (readCalls
            (([OnProgress 10 None "Extracting frames..."] ++
              extractTrace W this videoUri frameCount 0) ++
             [OnProgress 30 None "Processing frames..."] ++
             loopTrace this (length frames) 0 (results inference W m frames)
               initialLocals ++
             [OnProgress 100 None
                (translatedText
                   (decode this (map (classified inference W m) frames)
                      initialLocals))])) = length frames).
  { rewrite !readCalls_app.
    destruct (extractTrace_calls W this videoUri frameCount 0) as (_ & -> & _).
    destruct (loopTrace_calls this (length frames) (results inference W m frames)
                0 initialLocals) as (_ & -> & _).
    cbn [readCalls filter app]. rewrite app_nil_r.
    unfold results. now rewrite !length_map. }
  rewrite Hreads.
  assert (Hall : Forall oneCharacter (map (classified inference W m) frames)).
  { apply Forall_forall. intros r Hin.
    apply in_map_iff in Hin as (frame & <- & _). unfold classified, oneCharacter.
    destruct (readAsStringAsync W frame) as [base64|]; [|exact I].
    destruct (inference base64 m) as [[p|]|] eqn:E; try exact I.
    exact (Hone base64 m p E). }
  pose proof (decode_accounting this _ initialLocals Hall) as Hacc.
  cbn [translatedText framesConsistent initialLocals String.length] in Hacc.
  assert (Hletters : length (lettersOf (map (classified inference W m) frames))
                     <= length frames).
  { clear. induction frames as [|x xs IH]; [simpl; lia|].
    cbn [map lettersOf flat_map]. fold (lettersOf (map (classified inference W m) xs)).
    rewrite length_app. destruct (classified inference W m x); simpl in *; lia. }
  change (decode this (map (classified inference W m) fs)
            (feed this initialLocals (classified inference W m f)))
    with (decode this (map (classified inference W m) frames) initialLocals).
  unfold frameCount in Hlen. lia.
Qed.

Lemma transcript_length_is_bounded_by_the_frames_witness :
  CONSISTENCY_FRAMES newSignLanguageProcessor * String.length "A"
    <= length (readCalls (trace (processVideo alwaysA (videoOf 17)
                                   newSignLanguageProcessor "video" (Some tt)))) /\
  CONSISTENCY_FRAMES newSignLanguageProcessor * String.length "A" <= 100.
Proof.
  apply (transcript_length_is_bounded_by_the_frames alwaysA (videoOf 17)
           newSignLanguageProcessor "video" (Some tt) "A").
  - intros base64 m p H. injection H as <-. reflexivity.
  - vm_compute. reflexivity.
Defined.

(** ** The text in terms of runs of letters *)

(** The loop looks at the letters only. *)
Lemma decode_letters (this : SignLanguageProcessor) (c : float)
    (rs : list (option Prediction)) : forall st,
  decode this rs st = decode this (map (fun l => predict l c) (lettersOf rs)) st.
Proof.
  induction rs as [|[p|] rs IH]; intros st; cbn [lettersOf flat_map app map].
  - reflexivity.
  - rewrite !decode_cons. apply IH.
  - rewrite decode_cons. apply IH.
Qed.

(** A run of [S k] frames of a letter other than the last one seen: the
    first frame installs the letter, the other [k] count. *)
Lemma decode_run (this : SignLanguageProcessor) (p : Prediction) (k : nat)
    (st : Locals) :
  letter p <> lastPredictedLetter st ->
  CONSISTENCY_FRAMES this <> 0 ->
  decode this (repeat (Some p) (S k)) st =
  {| translatedText :=
       (translatedText st ++ copies (k / CONSISTENCY_FRAMES this) (letter p))%string;
     lastPredictedLetter := letter p;
     framesConsistent := k mod CONSISTENCY_FRAMES this |}.
Proof.
  intros Hl HN.
  change (S k) with (1 + k). rewrite repeat_app, decode_app.
  cbn [repeat]. rewrite decode_cons, decode_nil. cbn [feed].
  rewrite observe_new by assumption.
  rewrite (Nat.div_mod_eq k (CONSISTENCY_FRAMES this)) at 1.
  rewrite (Nat.mul_comm (CONSISTENCY_FRAMES this)).
  rewrite repeat_app, decode_app.
  rewrite decode_blocks by (simpl; auto).
  rewrite decode_partial_run; simpl; auto.
  apply Nat.mod_upper_bound; assumption.
Qed.

Lemma decode_runs_text (this : SignLanguageProcessor) (c : float)
    (runs : list (string * nat)) : forall st,
  CONSISTENCY_FRAMES this <> 0 ->
  changes (lastPredictedLetter st) runs ->
  translatedText (decode this (map (fun l => predict l c) (expandRuns runs)) st) =
  (translatedText st ++
   joined (map (fun run => copies (snd run / CONSISTENCY_FRAMES this) (fst run))
               runs))%string.
Proof.
  induction runs as [|[l k] runs IH]; intros st HN Hch.
  - simpl. now rewrite append_empty_r.
  - destruct Hch as [Hl Hch]. cbn [fst snd] in *.
    cbn [expandRuns flat_map fst snd]. fold (expandRuns runs).
    rewrite map_app, decode_app, map_repeat.
    unfold predict at 2.
    rewrite (decode_run this {| letter := l; confidence := c |} k st Hl HN).
    rewrite IH by (simpl; assumption).
    cbn [translatedText letter map joined fst snd].
    now rewrite append_assoc.
Qed.

(** X4.  What the frame loop commits, for any sequence of results.  Drop
    the frames without a prediction and cut the letters of the others
    into runs of equal letters, the first letter differing from the last
    one seen before: a run of [S k] frames of a letter adds that letter
    floor(k / CONSISTENCY_FRAMES) times to the text, and nothing else is
    added. *)
Theorem text_committed_by_runs (this : SignLanguageProcessor)
    (rs : list (option Prediction)) (runs : list (string * nat)) (st : Locals) :
  CONSISTENCY_FRAMES this <> 0 ->
  lettersOf rs = expandRuns runs ->
  changes (lastPredictedLetter st) runs ->
  translatedText (decode this rs st) =
  (translatedText st ++
   joined (map (fun run => copies (snd run / CONSISTENCY_FRAMES this) (fst run))
               runs))%string.
Proof.
  intros HN Hl Hch.
  rewrite (decode_letters this conf_0_9), Hl.
  now apply decode_runs_text.
Qed.

Lemma text_committed_by_runs_witness :
  translatedText
    (decode newSignLanguageProcessor
       (repeat (predict "A" conf_0_9) 16 ++ None :: predict "B" conf_0_5 ::
        repeat (predict "A" conf_0_9) 31)
       initialLocals) =
  ("" ++ joined (map (fun run => copies (snd run / 15) (fst run))
                     [("A", 15); ("B", 0); ("A", 30)]))%string.
Proof.
  apply (text_committed_by_runs newSignLanguageProcessor
           (repeat (predict "A" conf_0_9) 16 ++ None :: predict "B" conf_0_5 ::
            repeat (predict "A" conf_0_9) 31)
           [("A", 15); ("B", 0); ("A", 30)] initialLocals).
  - vm_compute. discriminate.
  - vm_compute. reflexivity.
  - vm_compute. repeat split; discriminate.
Defined.

(** X5.  A letter that is never held for more than [CONSISTENCY_FRAMES]
    predicted frames in a row is never committed: if every run of equal
    letters has at most [CONSISTENCY_FRAMES] frames, the text after the
    loop is the text before it. *)
Theorem short_runs_commit_nothing (this : SignLanguageProcessor)
    (rs : list (option Prediction)) (runs : list (string * nat)) (st : Locals) :
  lettersOf rs = expandRuns runs ->
  changes (lastPredictedLetter st) runs ->
  Forall (fun run => S (snd run) <= CONSISTENCY_FRAMES this) runs ->
  translatedText (decode this rs st) = translatedText st.
Proof.
  intros Hl Hch Hshort.
  rewrite (decode_letters this conf_0_9), Hl.
  destruct runs as [|run runs']; [reflexivity|].
  assert (HN : CONSISTENCY_FRAMES this <> 0).
  { inversion Hshort; subst. lia. }
  rewrite decode_runs_text by assumption.
  replace (joined _) with ""; [apply append_empty_r|].
  clear Hl Hch. symmetry.
  induction Hshort as [|r rest Hr _ IH]; [reflexivity|].
  cbn [map joined]. rewrite Nat.div_small by lia. exact IH.
Qed.

Lemma short_runs_commit_nothing_witness :
  translatedText
    (decode newSignLanguageProcessor
       (repeat (predict "A" conf_0_9) 15 ++ repeat (predict "B" conf_0_9) 15 ++
        repeat (predict "A" conf_0_9) 15)
       initialLocals) = translatedText initialLocals.
Proof.
  apply (short_runs_commit_nothing newSignLanguageProcessor
           (repeat (predict "A" conf_0_9) 15 ++ repeat (predict "B" conf_0_9) 15 ++
            repeat (predict "A" conf_0_9) 15)
           [("A", 14); ("B", 14); ("A", 14)] initialLocals).
  - vm_compute. reflexivity.
  - vm_compute. repeat split; discriminate.
  - repeat constructor.
Defined.

(** ** The text passed to the progress callback *)

Lemma loopTrace_reported_text (this : SignLanguageProcessor) (n : nat)
    (rs : list (string * option Prediction)) : forall i st p l t,
  In (OnProgress p (Some l) t) (loopTrace this n i rs st) ->
  exists suffix,
    translatedText (decode this (map snd rs) st) = (t ++ suffix)%string.
Proof.
  induction rs as [|[frame r] rs IH]; intros i st p l t Hin; [contradiction|].
  cbn [loopTrace map snd] in *. rewrite decode_cons.
  apply in_app_or in Hin as [Hin|Hin]; [|exact (IH _ _ _ _ _ Hin)].
  unfold iterationTrace in Hin. destruct Hin as [Hin|Hin]; [discriminate|].
  apply in_app_or in Hin as [Hin|Hin].
  - destruct r as [p0|]; [|contradiction].
    destruct Hin as [Hin|[]]. injection Hin as _ _ <-.
    apply decode_text_extends.
  - destruct Hin as [Hin|[]]. discriminate.
Qed.

(** X6.  In a call of [processVideo] that resolves, every text passed to
    the progress callback together with a letter is a beginning of the
    text finally returned: what the caller was shown as translated so far
    is never taken back. *)
Theorem reported_text_is_a_prefix_of_the_result {Model : Type}
    (inference : string -> Model -> Completion (option Prediction))
    (W : World) (this : SignLanguageProcessor) (videoUri : string)
    (model : option Model) (text : string)
    (progress : nat) (currentLetter currentText : string) :
  outcome (processVideo inference W this videoUri model) = Normal text ->
  In (OnProgress progress (Some currentLetter) currentText)
     (trace (processVideo inference W this videoUri model)) ->
  exists suffix, text = (currentText ++ suffix)%string.
Proof.
  intros H Hin. destruct model as [m|]; [|discriminate].
  rewrite processVideo_eq in H, Hin. cbn zeta in H, Hin.
  destruct (extractedFrames W this videoUri) as [|f fs]; [discriminate|].
  cbn [outcome snd] in H. injection H as H. cbn [trace fst] in Hin.
  apply in_app_or in Hin as [Hin|Hin].
  - apply in_app_or in Hin as [[Hin|[]]|Hin]; [discriminate|].
    rewrite extractTrace_requests in Hin.
    apply in_map_iff in Hin as (k & Hk & _). discriminate.
  - apply in_app_or in Hin as [[Hin|[]]|Hin]; [discriminate|].
    apply in_app_or in Hin as [Hin|[Hin|[]]]; [|discriminate].
    apply loopTrace_reported_text in Hin as [suffix Hs].
    exists suffix. rewrite <- H, <- Hs. unfold results.
    rewrite map_map. reflexivity.
Qed.

Lemma reported_text_is_a_prefix_of_the_result_witness :
  exists suffix, "A" = ("A" ++ suffix)%string.
Proof.
  apply (reported_text_is_a_prefix_of_the_result alwaysA (videoOf 17)
           newSignLanguageProcessor "video" (Some tt) "A" 82 "A" "A").
  - vm_compute. reflexivity.
  - vm_compute. repeat (first [left; reflexivity | right]).
Defined.

Lemma loopTrace_report (this : SignLanguageProcessor) (n : nat)
    (rs : list (string * option Prediction)) : forall i st p l t,
  In (OnProgress p (Some l) t) (loopTrace this n i rs st) ->
  exists before frame p0 after,
    rs = before ++ (frame, Some p0) :: after /\
    p = frameProgress (i + length before) n /\
    l = letter p0 /\
    t = translatedText (decode this (map snd before ++ [Some p0]) st).
Proof.
  induction rs as [|[frame r] rs IH]; intros i st p l t Hin; [contradiction|].
  cbn [loopTrace] in Hin. apply in_app_or in Hin as [Hin|Hin].
  - unfold iterationTrace in Hin. destruct Hin as [Hin|Hin]; [discriminate|].
    apply in_app_or in Hin as [Hin|[Hin|[]]]; [|discriminate].
    destruct r as [p0|]; [|contradiction].
    destruct Hin as [Hin|[]]. injection Hin as <- <- <-.
    exists [], frame, p0, rs. cbn [app length map]. rewrite Nat.add_0_r.
    repeat split.
  - apply IH in Hin as (before & frame0 & p0 & after & -> & -> & -> & ->).
    exists ((frame, r) :: before), frame0, p0, after.
    cbn [app length map snd]. rewrite decode_cons, Nat.add_succ_r.
    repeat split.
Qed.

(** X7.  What the progress callback is told inside the frame loop.  Each
    call that carries a letter belongs to one extracted frame for which
    [processFrame] resolved to a prediction: the letter is the letter of
    that prediction, committed or not; the percentage is 30 plus
    floor(60 i / n) for the index i of the frame among the n frames; and
    the text is the text committed by the frames up to and including that
    frame. *)
Theorem progress_call_describes_its_frame {Model : Type}
    (inference : string -> Model -> Completion (option Prediction))
    (W : World) (this : SignLanguageProcessor) (videoUri : string) (m : Model)
    (progress : nat) (currentLetter currentText : string) :
  In (OnProgress progress (Some currentLetter) currentText)
     (trace (processVideo inference W this videoUri (Some m))) ->
  exists before frame after p,
    outcome (extractFrames W this videoUri) = Normal (before ++ frame :: after) /\
    classified inference W m frame = Some p /\
    currentLetter = letter p /\
    progress = frameProgress (length before) (length (before ++ frame :: after)) /\
    currentText =
      translatedText
        (decode this (map (classified inference W m) (before ++ [frame]))
           initialLocals).
Proof.
  intros Hin. rewrite extractFrames_eq. cbn [outcome snd].
  rewrite processVideo_eq in Hin. cbn zeta in Hin.
  destruct (extractedFrames W this videoUri) as [|f fs] eqn:E.
  - cbn [trace fst] in Hin. apply in_app_or in Hin as [[Hin|[]]|Hin];
      [discriminate|].
    rewrite extractTrace_requests in Hin.
    apply in_map_iff in Hin as (k & Hk & _). discriminate.
  - cbn [trace fst] in Hin. apply in_app_or in Hin as [Hin|Hin].
    + apply in_app_or in Hin as [[Hin|[]]|Hin]; [discriminate|].
      rewrite extractTrace_requests in Hin.
      apply in_map_iff in Hin as (k & Hk & _). discriminate.
    + apply in_app_or in Hin as [[Hin|[]]|Hin]; [discriminate|].
      apply in_app_or in Hin as [Hin|[Hin|[]]]; [|discriminate].
      apply loopTrace_report in Hin
        as (before & frame & p & after & Hrs & Hp & Hl & Ht).
      unfold results in Hrs.
      apply map_eq_app in Hrs as (fb & rest & Hf & Hb & Hrest).
      symmetry in Hrest.
      destruct rest as [|frame' fa]; [discriminate|].
      cbn [map] in Hrest. injection Hrest as Hfr Hcl Ha. subst frame'.
      symmetry in Hcl.
      exists fb, frame, fa, p. rewrite <- Hf.
      split; [reflexivity|]. split; [exact Hcl|]. split; [exact Hl|].
      assert (Hlen : length before = length fb) by (rewrite <- Hb; apply length_map).
      split.
      * rewrite Hp, Hlen. reflexivity.
      * rewrite Ht, <- Hb, map_app, map_map. cbn [map snd].
        now rewrite Hcl.
Qed.

Lemma progress_call_describes_its_frame_witness :
  exists before frame after p,
    outcome (extractFrames (videoOf 17) newSignLanguageProcessor "video")
      = Normal (before ++ frame :: after) /\
    classified alwaysA (videoOf 17) tt frame = Some p /\
    "A" = letter p /\
    82 = frameProgress (length before) (length (before ++ frame :: after)) /\
    "A" =
      translatedText
        (decode newSignLanguageProcessor
           (map (classified alwaysA (videoOf 17) tt) (before ++ [frame]))
           initialLocals).
Proof.
  apply (progress_call_describes_its_frame alwaysA (videoOf 17)
           newSignLanguageProcessor "video" tt 82 "A" "A").
  vm_compute. repeat (first [left; reflexivity | right]).
Defined.

(** ** The camera screen *)

Lemma deliver_keeps (t : list Event) : forall s : CameraScreen.Screen,
  CameraScreen.facing (fold_left CameraScreen.deliver t s) = CameraScreen.facing s /\
  CameraScreen.isRecording (fold_left CameraScreen.deliver t s)
    = CameraScreen.isRecording s /\
  CameraScreen.isProcessing (fold_left CameraScreen.deliver t s)
    = CameraScreen.isProcessing s /\
  CameraScreen.showResult (fold_left CameraScreen.deliver t s)
    = CameraScreen.showResult s /\
  CameraScreen.recordedVideoUri (fold_left CameraScreen.deliver t s)
    = CameraScreen.recordedVideoUri s.
Proof.
  induction t as [|e t IH]; intros s; [repeat split|].
  cbn [fold_left]. destruct (IH (CameraScreen.deliver s e)) as (-> & -> & -> & -> & ->).
  destruct e; cbn [CameraScreen.deliver]; try (repeat split; reflexivity).
  unfold CameraScreen.progressCallback.
  destruct (currentText =? "")%string; repeat split; reflexivity.
Qed.

Lemma deliver_thumbnails (W : World) (this : SignLanguageProcessor)
    (videoUri : string) (remaining : nat) : forall i (s : CameraScreen.Screen),
  fold_left CameraScreen.deliver (extractTrace W this videoUri remaining i) s = s.
Proof.
  induction remaining as [|r IH]; intros i s; cbn [extractTrace]; [reflexivity|].
  cbn [fold_left CameraScreen.deliver].
  destruct (getThumbnailAsync W videoUri (i * FRAME_INTERVAL_MS this));
    [apply IH | reflexivity].
Qed.

Lemma deliver_last (t : list Event) (s : CameraScreen.Screen)
    (progress : nat) (currentLetter : option string) (currentText : string) :
  CameraScreen.processingProgress
    (fold_left CameraScreen.deliver
       (t ++ [OnProgress progress currentLetter currentText]) s) = progress.
Proof.
  rewrite fold_left_app. cbn [fold_left CameraScreen.deliver].
  unfold CameraScreen.progressCallback.
  destruct (currentText =? "")%string; reflexivity.
Qed.

(** X8.  [processRecordedVideo] with a loaded model always ends with
    [isProcessing] false and leaves the camera facing, the recording flag
    and the recorded uri alone.  When [processVideo] resolves, no alert
    is shown, the result stays open, the progress is 100 and the text
    shown is the result, or No signs detected when the result is empty.
    When [processVideo] throws, one alert Failed to process video is
    shown and the result is closed. *)
Theorem screen_after_processRecordedVideo {Model : Type}
    (inference : string -> Model -> Completion (option Prediction))
    (W : World) (hook : CameraScreen.TensorflowModel Model) (videoUri : string)
    (s : CameraScreen.Screen) :
  CameraScreen.state hook = CameraScreen.loaded ->
  exists s' alerts,
    let run := processVideo inference W newSignLanguageProcessor videoUri
                 (CameraScreen.model hook) in
    CameraScreen.processRecordedVideo inference W hook videoUri s
      = (s', alerts, trace run) /\
    CameraScreen.isProcessing s' = false /\
    CameraScreen.facing s' = CameraScreen.facing s /\
    CameraScreen.isRecording s' = CameraScreen.isRecording s /\
    CameraScreen.recordedVideoUri s' = CameraScreen.recordedVideoUri s /\
    match outcome run with
    | Normal text =>
        alerts = [] /\
        CameraScreen.showResult s' = true /\
        CameraScreen.processingProgress s' = 100 /\
        CameraScreen.translatedText s' = CameraScreen.orNoSigns text
    | Thrown _ =>
        alerts = [("Error", "Failed to process video. Please try again.")] /\
        CameraScreen.showResult s' = false
    end.
Proof.
  intros Hloaded. unfold CameraScreen.processRecordedVideo. rewrite Hloaded.
  cbn zeta.
  set (run := processVideo inference W newSignLanguageProcessor videoUri
                (CameraScreen.model hook)).
  set (s1 := CameraScreen.setShowResult true
               (CameraScreen.setProcessingProgress 0
                  (CameraScreen.setIsProcessing true s))).
  destruct (deliver_keeps (trace run) s1) as (Hf & Hr & _ & Hs & Hu).
  destruct (outcome run) as [text|message] eqn:E.
  - do 2 eexists. split; [reflexivity|].
    cbn [CameraScreen.isProcessing CameraScreen.facing CameraScreen.isRecording
         CameraScreen.recordedVideoUri CameraScreen.showResult
         CameraScreen.processingProgress CameraScreen.translatedText
         CameraScreen.setIsProcessing CameraScreen.setTranslatedText].
    rewrite Hf, Hr, Hs, Hu. repeat split.
    assert (Hshape : exists calls, trace run = calls ++ [OnProgress 100 None text]).
    { unfold run in E |- *. destruct (CameraScreen.model hook) as [m|];
        [|discriminate].
      rewrite processVideo_eq in E |- *. cbn zeta in E |- *.
      destruct (extractedFrames W newSignLanguageProcessor videoUri);
        [discriminate|].
      cbn [outcome snd] in E. injection E as E. subst text. cbn [trace fst].
      eexists. rewrite !app_assoc. reflexivity. }
    destruct Hshape as [calls ->]. apply deliver_last.
  - do 2 eexists. split; [reflexivity|].
    cbn [CameraScreen.isProcessing CameraScreen.facing CameraScreen.isRecording
         CameraScreen.recordedVideoUri CameraScreen.showResult
         CameraScreen.setIsProcessing CameraScreen.setShowResult].
    rewrite Hf, Hr, Hu. repeat split.
Qed.

Lemma screen_after_processRecordedVideo_witness :
  exists s' alerts,
    let hook := {| CameraScreen.state := CameraScreen.loaded;
                   CameraScreen.model := Some tt |} in
    let run := processVideo alwaysA (videoOf 17) newSignLanguageProcessor "video"
                 (CameraScreen.model hook) in
    CameraScreen.processRecordedVideo alwaysA (videoOf 17) hook "video"
      CameraScreen.mounted = (s', alerts, trace run) /\
    CameraScreen.isProcessing s' = false /\
    CameraScreen.facing s' = CameraScreen.facing CameraScreen.mounted /\
    CameraScreen.isRecording s' = CameraScreen.isRecording CameraScreen.mounted /\
    CameraScreen.recordedVideoUri s'
      = CameraScreen.recordedVideoUri CameraScreen.mounted /\
    match outcome run with
    | Normal text =>
        alerts = [] /\
        CameraScreen.showResult s' = true /\
        CameraScreen.processingProgress s' = 100 /\
        CameraScreen.translatedText s' = CameraScreen.orNoSigns text
    | Thrown _ =>
        alerts = [("Error", "Failed to process video. Please try again.")] /\
        CameraScreen.showResult s' = false
    end.
Proof.
  apply (screen_after_processRecordedVideo alwaysA (videoOf 17)
           {| CameraScreen.state := CameraScreen.loaded;
              CameraScreen.model := Some tt |}
           "video" CameraScreen.mounted).
  reflexivity.
Defined.

Lemma loopTrace_placeholder_progress {Model : Type} (W : World)
    (this : SignLanguageProcessor) (m : Model) (n : nat) (frames : list string) :
  forall i st,
    progressValues (loopTrace this n i (results placeholder W m frames) st) = [].
Proof.
  induction frames as [|f fs IH]; intros i st; [reflexivity|].
  unfold results. cbn [map loopTrace]. fold (results placeholder W m fs).
  rewrite classified_placeholder, progressValues_app, IH. reflexivity.
Qed.

(** X9.  With the classifier as shipped, a loaded model and a video that
    gives at least one frame, [processRecordedVideo] shows no alert and
    ends on the open result with the text No signs detected and the
    progress at 100, the progress callback having been called with 10,
    30 and 100 only. *)
Theorem shipped_screen_shows_no_signs_detected {Model : Type}
    (W : World) (hook : CameraScreen.TensorflowModel Model) (m : Model)
    (videoUri : string) (frames : list string) (s : CameraScreen.Screen) :
  CameraScreen.state hook = CameraScreen.loaded ->
  CameraScreen.model hook = Some m ->
  outcome (extractFrames W newSignLanguageProcessor videoUri) = Normal frames ->
  frames <> [] ->
  exists s' calls,
    CameraScreen.processRecordedVideo placeholder W hook videoUri s = (s', [], calls) /\
    CameraScreen.translatedText s' = "No signs detected" /\
    CameraScreen.processingProgress s' = 100 /\
    CameraScreen.showResult s' = true /\
    CameraScreen.isProcessing s' = false /\
    progressValues calls = [10; 30; 100].
Proof.
  intros Hloaded Hm Hx Hne.
  rewrite extractFrames_eq in Hx. cbn [outcome snd] in Hx. injection Hx as Hx.
  unfold CameraScreen.processRecordedVideo. rewrite Hloaded, Hm. cbn zeta.
  rewrite processVideo_eq. cbn zeta. rewrite Hx.
  destruct frames as [|f fs]; [contradiction|].
  assert (Hnull : decode newSignLanguageProcessor
                    (map (classified placeholder W m) (f :: fs)) initialLocals
                  = initialLocals).
  { apply decode_all_null, Forall_forall. intros r Hin.
    apply in_map_iff in Hin as (frame & <- & _). apply classified_placeholder. }
  rewrite Hnull. cbn [outcome trace fst snd translatedText initialLocals].
  do 2 eexists. split; [reflexivity|].
  cbn [CameraScreen.translatedText CameraScreen.processingProgress
       CameraScreen.showResult CameraScreen.isProcessing
       CameraScreen.setIsProcessing CameraScreen.setTranslatedText].
  split; [reflexivity|]. split; [|split; [|split; [reflexivity|]]].
  - rewrite !app_assoc. apply deliver_last.
  - match goal with |- CameraScreen.showResult (fold_left _ ?t ?s1) = _ =>
      destruct (deliver_keeps t s1) as (_ & _ & _ & -> & _) end.
    reflexivity.
  - rewrite !progressValues_app, loopTrace_placeholder_progress.
    destruct (extractTrace_calls W newSignLanguageProcessor videoUri frameCount 0)
      as (_ & _ & -> & _).
    reflexivity.
Qed.

Lemma shipped_screen_shows_no_signs_detected_witness :
  exists s' calls,
    CameraScreen.processRecordedVideo (Model := unit) placeholder (videoOf 2)
      {| CameraScreen.state := CameraScreen.loaded; CameraScreen.model := Some tt |}
      "video" CameraScreen.mounted = (s', [], calls) /\
    CameraScreen.translatedText s' = "No signs detected" /\
    CameraScreen.processingProgress s' = 100 /\
    CameraScreen.showResult s' = true /\
    CameraScreen.isProcessing s' = false /\
    progressValues calls = [10; 30; 100].
Proof.
  apply (shipped_screen_shows_no_signs_detected (videoOf 2)
           {| CameraScreen.state := CameraScreen.loaded; CameraScreen.model := Some tt |}
           tt "video" ["frame-a"; "frame-b"] CameraScreen.mounted).
  - reflexivity.
  - reflexivity.
  - vm_compute. reflexivity.
  - discriminate.
Defined.

(** X10.  When the video gives no frame, [processRecordedVideo] shows the
    alert Failed to process video and closes the result, with
    [isProcessing] false; the text of the screen is then the status
    text Extracting frames..., which the progress callback stored as if
    it were translated text, and the progress stays at 10.  No frame was
    read. *)
Theorem failed_extraction_leaves_the_status_text {Model : Type}
    (inference : string -> Model -> Completion (option Prediction))
    (W : World) (hook : CameraScreen.TensorflowModel Model) (m : Model)
    (videoUri : string) (s : CameraScreen.Screen) :
  CameraScreen.state hook = CameraScreen.loaded ->
  CameraScreen.model hook = Some m ->
  outcome (extractFrames W newSignLanguageProcessor videoUri) = Normal [] ->
  exists s' calls,
    CameraScreen.processRecordedVideo inference W hook videoUri s =
      (s', [("Error", "Failed to process video. Please try again.")], calls) /\
    CameraScreen.translatedText s' = "Extracting frames..." /\
    CameraScreen.processingProgress s' = 10 /\
    CameraScreen.showResult s' = false /\
    CameraScreen.isProcessing s' = false /\
    readCalls calls = [].
Proof.
  intros Hloaded Hm Hx.
  rewrite extractFrames_eq in Hx. cbn [outcome snd] in Hx. injection Hx as Hx.
  unfold CameraScreen.processRecordedVideo. rewrite Hloaded, Hm. cbn zeta.
  rewrite processVideo_eq. cbn zeta. rewrite Hx.
  cbn [outcome trace fst snd].
  do 2 eexists. split; [reflexivity|].
  rewrite fold_left_app, deliver_thumbnails.
  repeat split.
  rewrite readCalls_app.
  destruct (extractTrace_calls W newSignLanguageProcessor videoUri frameCount 0)
    as (_ & -> & _).
  reflexivity.
Qed.

Lemma failed_extraction_leaves_the_status_text_witness :
  exists s' calls,
    CameraScreen.processRecordedVideo alwaysA (videoOf 0)
      {| CameraScreen.state := CameraScreen.loaded; CameraScreen.model := Some tt |}
      "video" CameraScreen.mounted =
      (s', [("Error", "Failed to process video. Please try again.")], calls) /\
    CameraScreen.translatedText s' = "Extracting frames..." /\
    CameraScreen.processingProgress s' = 10 /\
    CameraScreen.showResult s' = false /\
    CameraScreen.isProcessing s' = false /\
    readCalls calls = [].
Proof.
  apply (failed_extraction_leaves_the_status_text alwaysA (videoOf 0)
           {| CameraScreen.state := CameraScreen.loaded; CameraScreen.model := Some tt |}
           tt "video" CameraScreen.mounted).
  - reflexivity.
  - reflexivity.
  - vm_compute. reflexivity.
Defined.

(** X11.  [startRecording], pressed with a camera while neither
    recording nor processing, always comes back with [isRecording] and
    [isProcessing] false, however the recording and the processing end;
    and frames are read only when the recording gave a video with a uri
    and the model is loaded. *)
Theorem startRecording_ends_idle {Model : Type}
    (inference : string -> Model -> Completion (option Prediction))
    (W : World) (recordAsync : Completion (option string))
    (hook : CameraScreen.TensorflowModel Model) (s : CameraScreen.Screen) :
  CameraScreen.isRecording s = false ->
  CameraScreen.isProcessing s = false ->
  exists s' alerts calls,
    CameraScreen.startRecording inference W true recordAsync hook s
      = (s', alerts, calls) /\
    CameraScreen.isRecording s' = false /\
    CameraScreen.isProcessing s' = false /\
    (calls = [] \/
     exists uri, recordAsync = Normal (Some uri) /\ uri <> "" /\
                 CameraScreen.state hook = CameraScreen.loaded).
Proof.
  intros Hrec Hproc. unfold CameraScreen.startRecording.
  rewrite Hrec. cbn [andb negb].
  destruct recordAsync as [[uri|]|message].
  - destruct (String.eqb_spec uri "") as [->|Hne].
    + do 3 eexists. split; [reflexivity|]. repeat split; try assumption. now left.
    + destruct (CameraScreen.state hook) eqn:Hstate.
      * unfold CameraScreen.processRecordedVideo. rewrite Hstate.
        do 3 eexists. split; [reflexivity|]. repeat split; try assumption. now left.
      * destruct (screen_after_processRecordedVideo inference W hook uri
                    (CameraScreen.setRecordedVideoUri (Some uri)
                       (CameraScreen.setRecordedVideoUri None
                          (CameraScreen.setTranslatedText ""
                             (CameraScreen.setIsRecording true s)))) Hstate)
          as (s2 & alerts & H).
        cbn zeta in H. destruct H as (Heq & Hp & _). rewrite Heq.
        do 3 eexists. split; [reflexivity|]. repeat split; try assumption.
        right. exists uri. repeat split; assumption.
      * unfold CameraScreen.processRecordedVideo. rewrite Hstate.
        do 3 eexists. split; [reflexivity|]. repeat split; try assumption. now left.
  - do 3 eexists. split; [reflexivity|]. repeat split; try assumption. now left.
  - do 3 eexists. split; [reflexivity|]. repeat split; try assumption. now left.
Qed.

Lemma startRecording_ends_idle_witness :
  exists s' alerts calls,
    CameraScreen.startRecording alwaysA (videoOf 17) true (Normal (Some "video"))
      {| CameraScreen.state := CameraScreen.loaded; CameraScreen.model := Some tt |}
      CameraScreen.mounted = (s', alerts, calls) /\
    CameraScreen.isRecording s' = false /\
    CameraScreen.isProcessing s' = false /\
    (calls = [] \/
     exists uri, Normal (Some "video") = Normal (Some uri) /\ uri <> "" /\
                 CameraScreen.state
                   {| CameraScreen.state := CameraScreen.loaded;
                      CameraScreen.model := Some tt |} = CameraScreen.loaded).
Proof.
  apply (startRecording_ends_idle alwaysA (videoOf 17) (Normal (Some "video"))
           {| CameraScreen.state := CameraScreen.loaded; CameraScreen.model := Some tt |}
           CameraScreen.mounted).
  - reflexivity.
  - reflexivity.
Defined.

(** ** The home screen *)

Lemma pressed_app (before after : list Z) :
  pressed (before ++ after) =
  fold_left (fun activeId id => handleActive id activeId) after (pressed before).
Proof. unfold pressed. apply fold_left_app. Qed.

(** After any presses, the active option, if there is one, is the one
    pressed last. *)
Lemma pressed_last (ids : list Z) (d : Z) :
  pressed ids = None \/ (ids <> [] /\ pressed ids = Some (last ids d)).
Proof.
  induction ids as [|id ids IH] using rev_ind; [now left|].
  rewrite pressed_app, last_last. cbn [fold_left].
  destruct (pressed ids) as [prev|]; cbn [handleActive].
  - destruct (prev =? id)%Z; [now left|right].
    split; [now destruct ids | reflexivity].
  - right. split; [now destruct ids | reflexivity].
Qed.

Lemma presses_of_one_option (id : Z) (n : nat) :
  fold_left (fun activeId i => handleActive i activeId) (repeat id n) (Some id) =
    (if Nat.even n then Some id else None) /\
  fold_left (fun activeId i => handleActive i activeId) (repeat id n) None =
    (if Nat.even n then None else Some id).
Proof.
  induction n as [|n [IH1 IH2]]; [split; reflexivity|].
  cbn [repeat fold_left handleActive]. rewrite Z.eqb_refl, IH1, IH2.
  rewrite Nat.even_succ, <- Nat.negb_even.
  destruct (Nat.even n); split; reflexivity.
Qed.

(** X12.  On the home screen, pressing one option [S n] times in a row,
    after presses that ended on another option or after none, leaves that
    option active when the number of presses is odd and no option active
    when it is even: a press selects, the next press of the same option
    deselects, and what was active before does not matter. *)
Theorem pressing_an_option_toggles_it (before : list Z) (id : Z) (n : nat) :
  last before (id + 1)%Z <> id ->
  pressed (before ++ repeat id (S n)) = if Nat.even n then Some id else None.
Proof.
  intros Hlast. rewrite pressed_app. cbn [repeat fold_left].
  assert (Hfirst : handleActive id (pressed before) = Some id).
  { destruct (pressed_last before (id + 1)%Z) as [->|[_ ->]]; [reflexivity|].
    cbn [handleActive]. destruct (Z.eqb_spec (last before (id + 1)%Z) id);
      [contradiction | reflexivity]. }
  rewrite Hfirst. apply presses_of_one_option.
Qed.

Lemma pressing_an_option_toggles_it_witness :
  pressed ([1; 2; 2; 1] ++ repeat 2 (S 2))%Z = if Nat.even 2 then Some 2%Z else None.
Proof.
  apply (pressing_an_option_toggles_it [1; 2; 2; 1]%Z 2%Z 2).
  vm_compute. discriminate.
Defined.

(** ** ImagePreprocessorExample.preprocessFrame *)

(** X13.  [preprocessFrame] resolves exactly when the resize to 28 by 28
    is accepted.  It then has deleted the resized file, and only that
    file, once, whether or not the deletion was accepted, and returns
    width 28, height 28 and width times height values, all 0.  When the
    resize is rejected the error is thrown on and nothing is deleted. *)
Theorem preprocessFrame_cleans_up (X : ImagePreprocessorExample.Expo)
    (frameUri : string) :
  let resizing :=
    ImagePreprocessorExample.ManipulateAsync frameUri
      (ImagePreprocessorExample.resize 28 28) in
  match ImagePreprocessorExample.preprocessFrame X frameUri with
  | (calls, Normal result) =>
      exists resizedUri,
        ImagePreprocessorExample.manipulateAsync X frameUri
          (ImagePreprocessorExample.resize 28 28) = Some resizedUri /\
        calls = [resizing; ImagePreprocessorExample.DeleteAsync resizedUri] /\
        ImagePreprocessorExample.width result = 28 /\
        ImagePreprocessorExample.height result = 28 /\
        length (ImagePreprocessorExample.data result) =
          ImagePreprocessorExample.width result *
          ImagePreprocessorExample.height result /\
        Forall (fun v => v = 0%float) (ImagePreprocessorExample.data result)
  | (calls, Thrown message) =>
      ImagePreprocessorExample.manipulateAsync X frameUri
        (ImagePreprocessorExample.resize 28 28) = None /\
      calls = [resizing] /\
      message = "manipulateAsync rejected"
  end.
Proof.
  cbv zeta.
  unfold ImagePreprocessorExample.preprocessFrame,
    ImagePreprocessorExample.resizeImage,
    ImagePreprocessorExample.getNormalizedPixelData,
    ImagePreprocessorExample.andThen, ImagePreprocessorExample.catching,
    ImagePreprocessorExample.done.
  destruct (ImagePreprocessorExample.manipulateAsync X frameUri
              (ImagePreprocessorExample.resize 28 28)) as [resizedUri|] eqn:E.
  - destruct (ImagePreprocessorExample.deleteFile X resizedUri);
      cbn [app fst snd]; exists resizedUri;
      cbn [ImagePreprocessorExample.width ImagePreprocessorExample.height
           ImagePreprocessorExample.data];
      (repeat split; try reflexivity);
      try (rewrite repeat_length; reflexivity);
      apply Forall_forall; intros v Hv; now apply repeat_spec in Hv.
  - cbn [app]. repeat split; reflexivity.
Qed.

(** ** getSignLanguageProcessor *)

(** X14.  However often [getSignLanguageProcessor] is called, every call
    returns the same object: the one the module already held, or else
    the one made by the first call; the constructor runs at most once,
    and not at all when the module already held an object. *)
Theorem getSignLanguageProcessor_is_a_singleton (calls : nat) (st : ModuleState) :
  getSignLanguageProcessorTimes (S calls) st =
  (repeat (match processorInstance st with
           | Some instance => instance
           | None => constructed st
           end) (S calls),
   {| processorInstance :=
        Some (match processorInstance st with
              | Some instance => instance
              | None => constructed st
              end);
      constructed :=
        match processorInstance st with
        | Some _ => constructed st
        | None => S (constructed st)
        end |}).
Proof.
  assert (Hheld : forall n instance c,
            getSignLanguageProcessorTimes n
              {| processorInstance := Some instance; constructed := c |} =
            (repeat instance n,
             {| processorInstance := Some instance; constructed := c |})).
  { induction n as [|n IH]; intros instance c; [reflexivity|].
    cbn [getSignLanguageProcessorTimes getSignLanguageProcessor processorInstance].
    now rewrite IH. }
  cbn [getSignLanguageProcessorTimes]. unfold getSignLanguageProcessor.
  destruct st as [[instance|] c]; cbn [processorInstance constructed];
    now rewrite Hheld.
Qed.
